(** * Context7 MCP server: workflow gate, session store, telemetry, port fallback

    A shallow embedding of [src/index.ts].  The module-level mutable
    variables of the script ([sessionStates], [totalCallCount],
    [toolCallStats], [callHistory]) together with the JavaScript heap cells
    they point to, the timers installed by [setInterval], the system clock
    and the console form one [World]; every function of the script that
    touches them is a computation in the state-and-failure monad [M].

    Numbers: the [tokens] argument is a JavaScript number and is modelled by
    a binary64 float ([PrimFloat.float]); clock readings, counters and port
    numbers take integral values only and are modelled in [Z].

    Strings are sequences of 8-bit characters; the script only inspects
    ASCII characters of them (a leading slash, a comma, the letters of the
    error patterns).

    Objects: a [SessionState] object lives in [heap] and is referred to by
    its index, so that the object a handler closed over and the object
    [sessionStates] holds under a key can be told apart once the key has
    been deleted and created again.

    A tool handler runs from its first statement to its [return] as one
    step: the awaited backend call answers at once, and the calls made to
    the backend are kept in the trace [backendCalls]. *)

From Stdlib Require Import ZArith String Ascii List Lia Floats.
From stdpp Require Import base option gmap strings list.
From Equations Require Import Equations.

Open Scope Z_scope.
Open Scope string_scope.

(** ** Data model *)

(** [interface SessionState].  The optional field [sessionId] is never read
    nor written by the script and is left out. *)
Record SessionState := {
  resolveLibraryIdCalled : bool;
  getLibraryDocsCalled : bool;
  lastResolveLibraryIdTime : option Z
}.

(** The two keys of [toolCallStats]; [logToolCall] is only ever called with
    one of these two literals. *)
Inductive ToolName := ResolveLibraryId | GetLibraryDocs.

Definition tool_string (t : ToolName) : string :=
  match t with
  | ResolveLibraryId => "resolve-library-id"
  | GetLibraryDocs => "get-library-docs"
  end.

Record ToolCallStats := {
  resolve_library_id_count : Z;
  get_library_docs_count : Z
}.

(** An element of [callHistory]. *)
Record LogEntry := {
  timestamp : string;
  tool : string;
  query : option string;
  libraryId : option string;
  clientIp : option string;
  success : bool
}.

(** The options object handed to [fetchLibraryDocumentation]. *)
Record FetchOptions := {
  tokens : float;
  topic : string
}.

(** [SearchResponse] of [./lib/types.js], by the two fields the script
    reads; [results] may be missing at run time. *)
Record SearchResponse (R : Type) := {
  results : option (list R);
  error : option string
}.
Arguments results {R} _.
Arguments error {R} _.

(** The collaborators imported from [./lib/api.js] and [./lib/utils.js],
    and two built-ins that stay abstract: the rendering of a clock reading
    by [Date.prototype.toISOString] and [String.prototype.trim]. *)
Class Collaborators := {
  SearchResult : Type;
  searchLibraries : string → option string → SearchResponse SearchResult;
  fetchLibraryDocumentation : string → FetchOptions → option string → option string;
  formatSearchResults : SearchResponse SearchResult → string;
  toISOString : Z → string;
  trim : string → string
}.

(** Ghost trace of the calls made to the backend. *)
Inductive BackendCall :=
| SearchCall (libraryName : string) (ip : option string)
| FetchCall (id : string) (opts : FetchOptions) (ip : option string).

(** What the script writes with [console.error]. *)
Inductive ConsoleLine :=
| StatsLine (total resolveCount docsCount : Z)
| CallLine (toolName : string) (ok : bool) (now : Z)
| WatchdogWarning (sessionIdentifier : string).

(** A server instance returned by [createServerInstance]: the values its
    tool handlers close over.  [srv_state] is the address of the
    [SessionState] object bound to the local [sessionState]. *)
Record ServerInstance := {
  srv_clientIp : option string;
  srv_identifier : string;
  srv_state : nat
}.

(** A timer created by [setInterval]: its period and the instance whose
    [connect] installed it. *)
Record Interval := {
  iv_period : Z;
  iv_server : ServerInstance
}.

(** A transport after [server.connect]: the values captured by its
    [onclose] callback. *)
Record Transport := {
  tr_checkInterval : nat;
  tr_sessionIdentifier : string
}.

Record World := {
  clock : Z;
  heap : list SessionState;
  sessionStates : gmap string nat;
  totalCallCount : Z;
  toolCallStats : ToolCallStats;
  callHistory : list LogEntry;
  intervals : list (option Interval);
  backendCalls : list BackendCall;
  console : list ConsoleLine
}.

Definition set_clock (t : Z) (w : World) : World :=
  {| clock := t; heap := heap w; sessionStates := sessionStates w;
     totalCallCount := totalCallCount w; toolCallStats := toolCallStats w;
     callHistory := callHistory w; intervals := intervals w;
     backendCalls := backendCalls w; console := console w |}.

Definition set_heap (h : list SessionState) (w : World) : World :=
  {| clock := clock w; heap := h; sessionStates := sessionStates w;
     totalCallCount := totalCallCount w; toolCallStats := toolCallStats w;
     callHistory := callHistory w; intervals := intervals w;
     backendCalls := backendCalls w; console := console w |}.

Definition set_sessionStates (m : gmap string nat) (w : World) : World :=
  {| clock := clock w; heap := heap w; sessionStates := m;
     totalCallCount := totalCallCount w; toolCallStats := toolCallStats w;
     callHistory := callHistory w; intervals := intervals w;
     backendCalls := backendCalls w; console := console w |}.

Definition set_totalCallCount (n : Z) (w : World) : World :=
  {| clock := clock w; heap := heap w; sessionStates := sessionStates w;
     totalCallCount := n; toolCallStats := toolCallStats w;
     callHistory := callHistory w; intervals := intervals w;
     backendCalls := backendCalls w; console := console w |}.

Definition set_toolCallStats (s : ToolCallStats) (w : World) : World :=
  {| clock := clock w; heap := heap w; sessionStates := sessionStates w;
     totalCallCount := totalCallCount w; toolCallStats := s;
     callHistory := callHistory w; intervals := intervals w;
     backendCalls := backendCalls w; console := console w |}.

Definition set_callHistory (h : list LogEntry) (w : World) : World :=
  {| clock := clock w; heap := heap w; sessionStates := sessionStates w;
     totalCallCount := totalCallCount w; toolCallStats := toolCallStats w;
     callHistory := h; intervals := intervals w;
     backendCalls := backendCalls w; console := console w |}.

Definition set_intervals (l : list (option Interval)) (w : World) : World :=
  {| clock := clock w; heap := heap w; sessionStates := sessionStates w;
     totalCallCount := totalCallCount w; toolCallStats := toolCallStats w;
     callHistory := callHistory w; intervals := l;
     backendCalls := backendCalls w; console := console w |}.

Definition set_backendCalls (l : list BackendCall) (w : World) : World :=
  {| clock := clock w; heap := heap w; sessionStates := sessionStates w;
     totalCallCount := totalCallCount w; toolCallStats := toolCallStats w;
     callHistory := callHistory w; intervals := intervals w;
     backendCalls := l; console := console w |}.

Definition set_console (l : list ConsoleLine) (w : World) : World :=
  {| clock := clock w; heap := heap w; sessionStates := sessionStates w;
     totalCallCount := totalCallCount w; toolCallStats := toolCallStats w;
     callHistory := callHistory w; intervals := intervals w;
     backendCalls := backendCalls w; console := l |}.

(** The state of the process when the script starts, at clock reading [t]. *)
Definition initial_world (t : Z) : World :=
  {| clock := t; heap := []; sessionStates := ∅;
     totalCallCount := 0;
     toolCallStats := {| resolve_library_id_count := 0; get_library_docs_count := 0 |};
     callHistory := []; intervals := [];
     backendCalls := []; console := [] |}.

(** ** The monad of the script *)

(** A computation reads and writes the world; [None] is a read through an
    address that holds no object. *)
Definition M (A : Type) : Type := World → option (A * World).

#[global] Instance M_ret : MRet M := λ A a w, Some (a, w).
#[global] Instance M_bind : MBind M := λ A B k c w,
  match c w with
  | Some (a, w') => k a w'
  | None => None
  end.

Definition get : M World := λ w, Some (w, w).
Definition gets {A} (f : World → A) : M A := λ w, Some (f w, w).
Definition modify (f : World → World) : M unit := λ w, Some (tt, f w).

(** Reading and writing the fields of the object at address [l]. *)
Definition readSession (l : nat) : M SessionState :=
  λ w, match heap w !! l with
       | Some s => Some (s, w)
       | None => None
       end.

Definition writeSession (l : nat) (f : SessionState → SessionState) : M unit :=
  s ← readSession l;
  modify (λ w, set_heap (<[l := f s]> (heap w)) w).

Definition emit (line : ConsoleLine) : M unit :=
  modify (λ w, set_console (console w ++ [line]) w).

Definition callBackend (c : BackendCall) : M unit :=
  modify (λ w, set_backendCalls (backendCalls w ++ [c]) w).

(** ** In-file helpers of the script *)

Definition DEFAULT_MINIMUM_TOKENS : float := 10000%float.

(** JavaScript truthiness of an optional string: [undefined] and the empty
    string are falsy. *)
Definition truthy (o : option string) : bool :=
  match o with
  | Some s => negb (String.eqb s "")
  | None => false
  end.

(** [a || d] on an optional string. *)
Definition or_else (o : option string) (d : string) : string :=
  match o with
  | Some s => if String.eqb s "" then d else s
  | None => d
  end.

(** The object literal that [getSessionState] stores for a new key. *)
Definition new_session : SessionState :=
  {| resolveLibraryIdCalled := false; getLibraryDocsCalled := false;
     lastResolveLibraryIdTime := None |}.

(** [getSessionState(identifier)]: the address of the object stored under
    [identifier], after allocating one when the key is absent. *)
Definition getSessionState (identifier : string) : M nat :=
  m ← gets sessionStates;
  match m !! identifier with
  | Some l => mret l
  | None =>
      l ← gets (λ w, length (heap w));
      modify (λ w, set_heap (heap w ++ [new_session]) w);;
      modify (λ w, set_sessionStates (<[identifier := l]> (sessionStates w)) w);;
      mret l
  end.

(** [callHistory.slice(-100)] *)
Definition slice_last_100 (h : list LogEntry) : list LogEntry :=
  drop (length h - 100)%nat h.

(** The [clientIp] field of a log entry. *)
Definition mask_ip (ip : option string) : option string :=
  match ip with
  | Some s => if String.eqb s "" then None else Some (substring 0 8 s ++ "...")
  | None => None
  end.

Definition bump (t : ToolName) (s : ToolCallStats) : ToolCallStats :=
  match t with
  | ResolveLibraryId =>
      {| resolve_library_id_count := resolve_library_id_count s + 1;
         get_library_docs_count := get_library_docs_count s |}
  | GetLibraryDocs =>
      {| resolve_library_id_count := resolve_library_id_count s;
         get_library_docs_count := get_library_docs_count s + 1 |}
  end.

Definition stat (t : ToolName) (s : ToolCallStats) : Z :=
  match t with
  | ResolveLibraryId => resolve_library_id_count s
  | GetLibraryDocs => get_library_docs_count s
  end.

Section Script.
Context `{Collaborators}.

(** The object literal [logEntry] built by [logToolCall] at clock reading [now]. *)
Definition logEntry (now : Z) (t : ToolName) (q lib ip : option string)
    (ok : bool) : LogEntry :=
  {| timestamp := toISOString now; tool := tool_string t; query := q;
     libraryId := lib; clientIp := mask_ip ip; success := ok |}.

(** [logToolCall(tool, query, libraryId, clientIp, success)] *)
Definition logToolCall (t : ToolName) (q lib ip : option string) (ok : bool) : M unit :=
  modify (λ w, set_totalCallCount (totalCallCount w + 1) w);;
  modify (λ w, set_toolCallStats (bump t (toolCallStats w)) w);;
  now ← gets clock;
  modify (λ w, set_callHistory (callHistory w ++ [logEntry now t q lib ip ok]) w);;
  h ← gets callHistory;
  (if (100 <? length h)%nat
   then modify (λ w, set_callHistory (slice_last_100 (callHistory w)) w)
   else mret tt);;
  w ← get;
  emit (StatsLine (totalCallCount w)
          (resolve_library_id_count (toolCallStats w))
          (get_library_docs_count (toolCallStats w)));;
  emit (CallLine (tool_string t) ok now).

(** *** [containsErrorMessage]

    Every pattern is a literal with the [i] flag and without the [u] flag:
    it matches when the literal occurs in the query up to the case of the
    letters A to Z. *)
Definition lower_ascii (c : ascii) : ascii :=
  let n := nat_of_ascii c in
  if ((65 <=? n) && (n <=? 90))%nat then ascii_of_nat (n + 32) else c.

Fixpoint lower (s : string) : string :=
  match s with
  | EmptyString => EmptyString
  | String c s' => String (lower_ascii c) (lower s')
  end.

Fixpoint occurs (pat s : string) : bool :=
  String.prefix pat s ||
  match s with
  | EmptyString => false
  | String _ s' => occurs pat s'
  end.

Definition errorPatterns : list string :=
  ["error"; "exception"; "traceback"; "failed"; "cannot import";
   "module not found"; "no module named"; "import error"; "syntax error";
   "runtime error"; "attribute error"; "type error"].

Definition containsErrorMessage (q : string) : bool :=
  existsb (λ pattern, occurs pattern (lower q)) errorPatterns.

(** *** [getClientIp] *)

(** A header of Node's [IncomingHttpHeaders]: [string | string[]]. *)
Inductive HeaderValue :=
| HString (s : string)
| HArray (l : list string).

Record Request := {
  x_forwarded_for : option HeaderValue;
  remoteAddress : option string
}.

(** [s.split(",")[0]] *)
Fixpoint before_comma (s : string) : string :=
  match s with
  | EmptyString => EmptyString
  | String c s' => if Ascii.eqb c "," then EmptyString else String c (before_comma s')
  end.

Inductive TypeError := TypeErrorThrown.

(** [getClientIp(req)]; reading [split] of [undefined] (an empty header
    array) throws. *)
Definition getClientIp (req : Request) : TypeError + option string :=
  let fallback :=
    match remoteAddress req with
    | Some a => if String.eqb a "" then None else Some a
    | None => None
    end in
  match x_forwarded_for req with
  | Some (HString s) =>
      if String.eqb s "" then inr fallback
      else inr (Some (trim (before_comma s)))
  | Some (HArray []) => inl TypeErrorThrown
  | Some (HArray (ips :: _)) => inr (Some (trim (before_comma ips)))
  | None => inr fallback
  end.

(** *** The tool handlers registered by [createServerInstance] *)

Inductive Content := TextContent (text : string).

Record CallToolResult := { content : list Content }.

Definition text_result (s : string) : CallToolResult :=
  {| content := [TextContent s] |}.

Definition NO_MATCH_FOR_ERROR_ANALYSIS : string :=
  "Sorry, I can't search for the relevant library docs. No matching libraries found for the error analysis. Please try with a more specific library name or check the error message for library names.".

Definition FAILED_TO_RETRIEVE : string :=
  "Failed to retrieve library documentation data from Context7".

Definition RESULTS_HEADER : string :=
  "Available Libraries (top matches):

Each result includes:
- Library ID: Context7-compatible identifier (format: /org/project)
- Name: Library or package name
- Description: Short summary
- Code Snippets: Number of available code examples
- Trust Score: Authority indicator
- Versions: List of versions if available. Use one of those versions if and only if the user explicitly provides a version in their query.

For best results, select libraries based on name match, trust score, snippet coverage, and relevance to your use case.

----------

".

Definition MUST_RESOLVE_FIRST : string :=
  "Sorry, I can't search for the relevant library docs. You must call 'resolve-library-id' first to get a valid Context7-compatible library ID, unless you provide an explicit library ID in the format '/org/project'.".

Definition DOCS_NOT_FOUND : string :=
  "Documentation not found or not finalized for this library. This might have happened because you used an invalid Context7-compatible library ID. To get a valid Context7-compatible library ID, use the 'resolve-library-id' with the package name you wish to retrieve documentation for.".

Definition set_resolveLibraryIdCalled (b : bool) (s : SessionState) : SessionState :=
  {| resolveLibraryIdCalled := b;
     getLibraryDocsCalled := getLibraryDocsCalled s;
     lastResolveLibraryIdTime := lastResolveLibraryIdTime s |}.

Definition set_getLibraryDocsCalled (b : bool) (s : SessionState) : SessionState :=
  {| resolveLibraryIdCalled := resolveLibraryIdCalled s;
     getLibraryDocsCalled := b;
     lastResolveLibraryIdTime := lastResolveLibraryIdTime s |}.

Definition set_lastResolveLibraryIdTime (t : Z) (s : SessionState) : SessionState :=
  {| resolveLibraryIdCalled := resolveLibraryIdCalled s;
     getLibraryDocsCalled := getLibraryDocsCalled s;
     lastResolveLibraryIdTime := Some t |}.

(** [!searchResponse.results || searchResponse.results.length === 0] *)
Definition no_results (r : SearchResponse SearchResult) : bool :=
  match results r with
  | Some (_ :: _) => false
  | _ => true
  end.

(** [createServerInstance(clientIp)]: the closure environment of the
    handlers. *)
Definition createServerInstance (ip : option string) : M ServerInstance :=
  let sessionIdentifier := or_else ip "default" in
  l ← getSessionState sessionIdentifier;
  mret {| srv_clientIp := ip; srv_identifier := sessionIdentifier; srv_state := l |}.

(** The handler of [resolve-library-id]. *)
Definition resolve_library_id (srv : ServerInstance) (libraryName : string)
    : M CallToolResult :=
  let isErrorAnalysis := containsErrorMessage libraryName in
  writeSession (srv_state srv) (set_resolveLibraryIdCalled true);;
  writeSession (srv_state srv) (set_getLibraryDocsCalled false);;
  now ← gets clock;
  writeSession (srv_state srv) (set_lastResolveLibraryIdTime now);;
  logToolCall ResolveLibraryId (Some libraryName) None (srv_clientIp srv) true;;
  callBackend (SearchCall libraryName (srv_clientIp srv));;
  let searchResponse := searchLibraries libraryName (srv_clientIp srv) in
  if no_results searchResponse then
    logToolCall ResolveLibraryId (Some libraryName) None (srv_clientIp srv) false;;
    let errorMessage :=
      if isErrorAnalysis then NO_MATCH_FOR_ERROR_ANALYSIS
      else or_else (error searchResponse) FAILED_TO_RETRIEVE in
    mret (text_result errorMessage)
  else
    let resultsText := formatSearchResults searchResponse in
    mret (text_result (RESULTS_HEADER ++ resultsText)).

(** The [transform] step of the [tokens] schema. *)
Definition transform_tokens (val : float) : float :=
  if PrimFloat.ltb val DEFAULT_MINIMUM_TOKENS then DEFAULT_MINIMUM_TOKENS else val.

(** The [tokens] schema applied to the value left by [preprocess]:
    [optional] lets [undefined] through, [z.number()] refuses NaN, and a
    number is transformed. *)
Definition tokens_schema (val : option float) : option (option float) :=
  match val with
  | None => Some None
  | Some v => if PrimFloat.is_nan v then None else Some (Some (transform_tokens v))
  end.

(** The handler of [get-library-docs]; [tokens0] and [topic0] are the
    parsed arguments, whose defaults the parameter list supplies. *)
Definition get_library_docs (srv : ServerInstance)
    (context7CompatibleLibraryID : string) (tokens0 : option float)
    (topic0 : option string) : M CallToolResult :=
  let tokens := default DEFAULT_MINIMUM_TOKENS tokens0 in
  let topic := default "" topic0 in
  sessionState ← readSession (srv_state srv);
  if negb (resolveLibraryIdCalled sessionState) &&
     negb (String.prefix "/" context7CompatibleLibraryID)
  then mret (text_result MUST_RESOLVE_FIRST)
  else
    writeSession (srv_state srv) (set_getLibraryDocsCalled true);;
    logToolCall GetLibraryDocs (Some (or_else (Some topic) "general"))
      (Some context7CompatibleLibraryID) (srv_clientIp srv) true;;
    let opts := {| tokens := tokens; topic := topic |} in
    callBackend (FetchCall context7CompatibleLibraryID opts (srv_clientIp srv));;
    let fetchDocsResponse :=
      fetchLibraryDocumentation context7CompatibleLibraryID opts (srv_clientIp srv) in
    if truthy fetchDocsResponse then
      mret (text_result (default "" fetchDocsResponse))
    else
      logToolCall GetLibraryDocs (Some (or_else (Some topic) "general"))
        (Some context7CompatibleLibraryID) (srv_clientIp srv) false;;
      mret (text_result DOCS_NOT_FOUND).

(** *** The [server.connect] override *)

Definition WATCHDOG_PERIOD : Z := 30000.
Definition RESOLVE_TIMEOUT : Z := 75000.

(** The body of the [setInterval] callback. *)
Definition checkInterval (srv : ServerInstance) : M unit :=
  sessionState ← readSession (srv_state srv);
  if resolveLibraryIdCalled sessionState && negb (getLibraryDocsCalled sessionState)
  then
    now ← gets clock;
    let timeSinceResolve := now - default 0 (lastResolveLibraryIdTime sessionState) in
    if Z.ltb RESOLVE_TIMEOUT timeSinceResolve then
      emit (WatchdogWarning (srv_identifier srv));;
      writeSession (srv_state srv) (set_resolveLibraryIdCalled false);;
      writeSession (srv_state srv) (set_getLibraryDocsCalled false)
    else mret tt
  else mret tt.

(** [server.connect(transport)]: starts the timer and sets
    [transport.onclose]. *)
Definition connect (srv : ServerInstance) : M Transport :=
  i ← gets (λ w, length (intervals w));
  modify (λ w, set_intervals
    (intervals w ++ [Some {| iv_period := WATCHDOG_PERIOD; iv_server := srv |}]) w);;
  mret {| tr_checkInterval := i; tr_sessionIdentifier := srv_identifier srv |}.

(** The timer [i] fires. *)
Definition fire (i : nat) : M unit :=
  l ← gets intervals;
  match l !! i with
  | Some (Some iv) => checkInterval (iv_server iv)
  | _ => mret tt
  end.

(** [transport.onclose()] *)
Definition onclose (t : Transport) : M unit :=
  modify (λ w, set_intervals (<[tr_checkInterval t := None]> (intervals w)) w);;
  modify (λ w, set_sessionStates (delete (tr_sessionIdentifier t) (sessionStates w)) w).

(** *** The [POST /mcp] branch of the request listener *)

(** A [tools/call] request as the SDK hands it to a registered handler. *)
Inductive ToolCall :=
| CallResolve (libraryName : string)
| CallDocs (context7CompatibleLibraryID : string) (topic0 : option string)
    (tokens0 : option float).

Inductive Reply :=
| ToolReply (r : CallToolResult)
| InvalidParams.

(** [transport.handleRequest(req, res)]: the arguments go through the
    schema, then the handler of the named tool runs. *)
Definition handleRequest (srv : ServerInstance) (call : ToolCall) : M Reply :=
  match call with
  | CallResolve libraryName =>
      r ← resolve_library_id srv libraryName;
      mret (ToolReply r)
  | CallDocs id topic0 tokens0 =>
      match tokens_schema tokens0 with
      | Some parsed =>
          r ← get_library_docs srv id parsed topic0;
          mret (ToolReply r)
      | None => mret InvalidParams
      end
  end.



End Script.

(** ** Listening with port fallback *)

(** What [httpServer.listen(port)] leads to: the [listening] event, or an
    [error] event whose error carries [code]. *)
Inductive ListenOutcome :=
| Listening
| ListenError (code : option string).

Inductive StartupLine :=
| PortInUse (port next : Z)
| FailedToStart
| RunningOn (port : Z).

(** How [startServer] ends: the server runs with [actualPort], or
    [process.exit(status)]. *)
Inductive Startup :=
| Running (actualPort : Z)
| Exited (status : Z).

(** [err.code === "EADDRINUSE"] *)
Definition is_EADDRINUSE (code : option string) : bool :=
  match code with
  | Some c => String.eqb c "EADDRINUSE"
  | None => false
  end.

(** The bind failed because the address is in use. *)
Definition is_busy (o : ListenOutcome) : bool :=
  match o with
  | Listening => false
  | ListenError code => is_EADDRINUSE code
  end.

(** [startServer(port, maxAttempts)] on an [httpServer] that still holds the
    callbacks of the earlier [listen] calls: [listen] tells the outcome of
    binding each port, [initialPort] is the variable of [main] the error
    handler closes over, and [listening] holds the ports of the callbacks
    registered so far, oldest first.  [httpServer.listen(port, cb)] adds
    [cb] as a [once("listening")] listener, and a failed bind emits [error]
    only, so the callbacks of the failed attempts are still registered when
    a later bind succeeds: they run then in registration order, each one
    storing its own [port] in [actualPort] and printing it. *)
Equations? startServer_on (listen : Z → ListenOutcome) (initialPort : Z)
    (listening : list Z) (port maxAttempts : Z)
    : list StartupLine * Startup
    by wf (Z.to_nat (initialPort + maxAttempts - port)) lt :=
  startServer_on listen initialPort listening port maxAttempts with listen port := {
    | Listening => (map RunningOn (listening ++ [port])%list, Running port)
    | ListenError code with is_EADDRINUSE code := {
        | false => ([FailedToStart], Exited 1)
        | true with Z_lt_dec port (initialPort + maxAttempts) := {
            | left _ =>
                let r := startServer_on listen initialPort
                           (listening ++ [port])%list (port + 1) maxAttempts in
                (PortInUse port (port + 1) :: fst r, snd r)
            | right _ => ([FailedToStart], Exited 1) } } }.
Proof. lia. Qed.

(** [startServer(port, maxAttempts)] on the [httpServer] as [createServer]
    returns it, with no listener registered yet. *)
Definition startServer (listen : Z → ListenOutcome) (initialPort port maxAttempts : Z)
    : list StartupLine * Startup :=
  startServer_on listen initialPort [] port maxAttempts.

(** [startServer(initialPort)] as [main] calls it: [CLI_PORT ?? 3000] and
    the default [maxAttempts = 10]. *)
Definition main_startServer (listen : Z → ListenOutcome) (CLI_PORT : option Z)
    : list StartupLine * Startup :=
  let initialPort := default 3000 CLI_PORT in
  startServer listen initialPort initialPort 10.

(** ** Sequences of operations *)

Section Runs.
Context `{Collaborators}.

(** One telemetry record arriving at clock reading [la_time]. *)
Record LogArgs := {
  la_time : Z;
  la_tool : ToolName;
  la_query : option string;
  la_libraryId : option string;
  la_clientIp : option string;
  la_success : bool
}.

Definition entry_of (a : LogArgs) : LogEntry :=
  logEntry (la_time a) (la_tool a) (la_query a) (la_libraryId a)
    (la_clientIp a) (la_success a).

Definition record_at (a : LogArgs) : M unit :=
  modify (set_clock (la_time a));;
  logToolCall (la_tool a) (la_query a) (la_libraryId a) (la_clientIp a) (la_success a).

Fixpoint record_all (l : list LogArgs) : M unit :=
  match l with
  | [] => mret tt
  | a :: l' => record_at a;; record_all l'
  end.

(** The arguments of one [get-library-docs] call. *)
Record DocsArgs := {
  da_id : string;
  da_tokens : option float;
  da_topic : option string
}.

(** The options object a [get-library-docs] call with these arguments
    hands to the backend. *)
Definition fetch_options (a : DocsArgs) : FetchOptions :=
  {| tokens := default DEFAULT_MINIMUM_TOKENS (da_tokens a);
     topic := default "" (da_topic a) |}.

(** Consecutive [get-library-docs] calls on one server instance, with the
    results in call order. *)
Fixpoint docs_calls (srv : ServerInstance) (l : list DocsArgs) : M (list CallToolResult) :=
  match l with
  | [] => mret []
  | a :: l' =>
      r ← get_library_docs srv (da_id a) (da_tokens a) (da_topic a);
      rs ← docs_calls srv l';
      mret (r :: rs)
  end.

End Runs.

(** A backend for the examples: it knows one library. *)
Definition demo_backend : Collaborators := {|
  SearchResult := string;
  searchLibraries := λ q _,
    if String.eqb q "react"
    then {| results := Some ["/facebook/react"]; error := None |}
    else {| results := Some []; error := None |};
  fetchLibraryDocumentation := λ id _ _,
    if String.eqb id "/facebook/react" then Some "React documentation" else None;
  formatSearchResults := λ _, "- Library ID: /facebook/react";
  toISOString := λ _, "1970-01-01T00:00:00.000Z";
  trim := λ s, s
|}.

(** ** The order of binary64 numbers

    [sf_key] sends a number that is not NaN to a triple of integers whose
    lexicographic order is the order [SFcompare] computes: the class
    (minus infinity, negative, zero, positive, plus infinity), then the
    exponent and the mantissa, negated for negative numbers. *)

Definition sf_key (x : spec_float) : Z * Z * Z :=
  match x with
  | S754_nan => (0, 0, 0)
  | S754_infinity true => (-2, 0, 0)
  | S754_infinity false => (2, 0, 0)
  | S754_zero _ => (0, 0, 0)
  | S754_finite true m e => (-1, - e, Z.neg m)
  | S754_finite false m e => (1, e, Z.pos m)
  end.

Definition lex3 (a b : Z * Z * Z) : comparison :=
  let '(a1, a2, a3) := a in
  let '(b1, b2, b3) := b in
  match Z.compare a1 b1 with
  | Eq => match Z.compare a2 b2 with Eq => Z.compare a3 b3 | c => c end
  | c => c
  end.

Definition sf_is_nan (x : spec_float) : bool :=
  match x with S754_nan => true | _ => false end.

Definition le_cmp (c : comparison) : bool :=
  match c with Gt => false | _ => true end.

Definition lt_cmp (c : comparison) : bool :=
  match c with Lt => true | _ => false end.

(** ** Data of the examples *)

Definition demo_request : Request :=
  {| x_forwarded_for := None; remoteAddress := Some "10.0.0.1" |}.

Definition demo_server : ServerInstance :=
  {| srv_clientIp := Some "10.0.0.1"; srv_identifier := "10.0.0.1"; srv_state := 0 |}.

(** The world after [createServerInstance("10.0.0.1")] on a fresh process;
    [resolved] tells whether step 1 has run at clock reading 1000. *)
Definition demo_world (resolved docs : bool) (now : Z) : World :=
  set_sessionStates (<["10.0.0.1" := 0%nat]> ∅)
    (set_heap [{| resolveLibraryIdCalled := resolved; getLibraryDocsCalled := docs;
                  lastResolveLibraryIdTime := if resolved then Some 1000 else None |}]
       (initial_world now)).

(** The same world with the timer that [connect] installs for
    [demo_server]. *)
Definition demo_timer_world (resolved docs : bool) (now : Z) : World :=
  set_intervals [Some {| iv_period := WATCHDOG_PERIOD; iv_server := demo_server |}]
    (demo_world resolved docs now).

Definition demo_record (t : Z) : LogArgs :=
  {| la_time := t; la_tool := ResolveLibraryId; la_query := Some "react";
     la_libraryId := None; la_clientIp := Some "10.0.0.1"; la_success := true |}.

(** Ports below [p] are taken, the others are free. *)
Definition busy_below (p : Z) : Z → ListenOutcome :=
  λ q, if Z.ltb q p then ListenError (Some "EADDRINUSE") else Listening.

(** The store invariant: every entry of [sessionStates] points to an
    allocated object. *)
Definition store_ok (w : World) : Prop :=
  ∀ k l, sessionStates w !! k = Some l → is_Some (heap w !! l).

(** ** The HTTP request listener *)

(** The property names every object inherits from [Object.prototype]:
    reading one of them from the plain object [sseTransports] yields a
    value that is not [undefined]. *)
Definition OBJECT_PROTOTYPE_KEYS : list string :=
  ["constructor"; "hasOwnProperty"; "isPrototypeOf"; "propertyIsEnumerable";
   "toLocaleString"; "toString"; "valueOf"; "__proto__";
   "__defineGetter__"; "__defineSetter__"; "__lookupGetter__"; "__lookupSetter__"].

Definition is_prototype_key (k : string) : bool :=
  existsb (String.eqb k) OBJECT_PROTOTYPE_KEYS.

(** The result of [obj[k]] on a plain object used as a map. *)
Inductive Property (A : Type) :=
| Own (a : A)
| Inherited
| Undefined.
Arguments Own {A} _.
Arguments Inherited {A}.
Arguments Undefined {A}.

Definition get_property {A} (m : gmap string A) (k : string) : Property A :=
  match m !! k with
  | Some a => Own a
  | None => if is_prototype_key k then Inherited else Undefined
  end.

(** An [SSEServerTransport] stored in [sseTransports]: its id and the
    server instance it was connected to. *)
Record SseTransport := {
  sse_sessionId : string;
  sse_server : ServerInstance
}.

(** The process in HTTP mode: the world of the script and the registry
    [sseTransports]. *)
Record HttpState := {
  world : World;
  sseTransports : gmap string SseTransport
}.

(** What [new URL(req.url || "", `http://${req.headers.host}`)] gives when
    it does not throw: the pathname and the [sessionId] search
    parameter. *)
Record ParsedUrl := {
  url_pathname : string;
  url_sessionId : option string
}.

(** A request as the listener reads it: the method, the outcome of
    [new URL(...)] on its target and [Host] header ([None] when the
    constructor throws), the header and socket that [getClientIp] reads,
    and the [tools/call] message of the body. *)
Record HttpRequest := {
  method : string;
  url : option ParsedUrl;
  peer : Request;
  message : ToolCall
}.

(** The local [url] of the listener, the pathname of the parsed URL.  The
    listener reads it only after the constructor has returned; a pathname
    of an [http] URL is never empty. *)
Definition pathname (req : HttpRequest) : string :=
  match url req with
  | Some u => url_pathname u
  | None => ""
  end.

(** [searchParams.get("sessionId")] of the same URL, parsed again in the
    [/messages] branch. *)
Definition sessionIdParam (req : HttpRequest) : option string :=
  match url req with
  | Some u => url_sessionId u
  | None => None
  end.

(** How a request is answered: by the script with [writeHead] and [end],
    by a transport of the SDK that ran a tool handler, or by the event
    stream that [GET /sse] opens.  [Unanswered]: the listener threw before
    its [try] block, so that nothing was written and the promise of the
    callback is rejected; what the runtime does with the rejection is not
    the script's. *)
Inductive Answer :=
| Written (status : Z) (contentType : option string) (body : string)
| HandledByTransport (reply : Reply) (transport : option Transport)
| EventStreamOpened (sessionId : string) (transport : Transport)
| Unanswered.

Record HttpResponse := {
  res_headers : list (string * string);
  res_answer : Answer
}.

(** The four [res.setHeader] calls at the top of the listener. *)
Definition CORS_HEADERS : list (string * string) :=
  [("Access-Control-Allow-Origin", "*");
   ("Access-Control-Allow-Methods", "GET,POST,OPTIONS,DELETE");
   ("Access-Control-Allow-Headers",
    "Content-Type, MCP-Session-Id, mcp-session-id, MCP-Protocol-Version");
   ("Access-Control-Expose-Headers", "MCP-Session-Id")].

Definition respond (a : Answer) : HttpResponse :=
  {| res_headers := CORS_HEADERS; res_answer := a |}.

Definition HM (A : Type) : Type := HttpState → option (A * HttpState).

#[global] Instance HM_ret : MRet HM := λ A a st, Some (a, st).
#[global] Instance HM_bind : MBind HM := λ A B k c st,
  match c st with
  | Some (a, st') => k a st'
  | None => None
  end.

(** A computation of the script run on the world of the process. *)
Definition in_world {A} (c : M A) : HM A := λ st,
  match c (world st) with
  | Some (a, w') => Some (a, {| world := w'; sseTransports := sseTransports st |})
  | None => None
  end.

Definition set_sseTransports (f : gmap string SseTransport → gmap string SseTransport)
    : HM unit :=
  λ st, Some (tt, {| world := world st; sseTransports := f (sseTransports st) |}).

Section Http.
Context `{Collaborators}.

(** The branches of the [try] block once [requestServer] is built;
    [newSessionId] is the id that the SDK gives to an
    [SSEServerTransport] built for this request. *)
Definition route (req : HttpRequest) (newSessionId : string)
    (requestServer : ServerInstance) : HM HttpResponse :=
  if String.eqb (pathname req) "/mcp" then
    transport ← in_world (connect requestServer);
    reply ← in_world (handleRequest requestServer (message req));
    mret (respond (HandledByTransport reply (Some transport)))
  else if String.eqb (pathname req) "/sse" && String.eqb (method req) "GET" then
    set_sseTransports
      (insert newSessionId
         {| sse_sessionId := newSessionId; sse_server := requestServer |});;
    transport ← in_world (connect requestServer);
    mret (respond (EventStreamOpened newSessionId transport))
  else if String.eqb (pathname req) "/messages" && String.eqb (method req) "POST" then
    let sessionId := default "" (sessionIdParam req) in
    if String.eqb sessionId "" then
      mret (respond (Written 400 None "Missing sessionId parameter"))
    else
      registry ← (λ st, Some (sseTransports st, st)) : HM _;
      match get_property registry sessionId with
      | Undefined =>
          mret (respond (Written 400 None
                 ("No transport found for sessionId: " ++ sessionId)))
      | Inherited => mret (respond (Written 500 None "Internal Server Error"))
      | Own sseTransport =>
          reply ← in_world (handleRequest (sse_server sseTransport) (message req));
          mret (respond (HandledByTransport reply None))
      end
  else if String.eqb (pathname req) "/ping" then
    mret (respond (Written 200 (Some "text/plain") "pong"))
  else mret (respond (Written 404 None "Not found")).

(** The callback of [createServer].  Its first statement parses the URL,
    before the CORS headers are set, before the [OPTIONS] shortcut and
    outside the [try] block: when the constructor throws, no header is
    set, nothing is written and nothing of the state is touched. *)
Definition listener (req : HttpRequest) (newSessionId : string) : HM HttpResponse :=
  match url req with
  | None => mret {| res_headers := []; res_answer := Unanswered |}
  | Some _ =>
      if String.eqb (method req) "OPTIONS" then mret (respond (Written 200 None ""))
      else
        match getClientIp (peer req) with
        | inl _ => mret (respond (Written 500 None "Internal Server Error"))
        | inr ip =>
            requestServer ← in_world (createServerInstance ip);
            route req newSessionId requestServer
        end
  end.

(** The [close] callback that [GET /sse] registers on the response. *)
Definition response_closed (sessionId : string) : HM unit :=
  set_sseTransports (delete sessionId).

(** What happens in the process: a request, the close of an event-stream
    response, the close of a transport, a timer, the passing of time.  A
    run lists the events the process lives through; if the runtime ends
    the process on a request that the listener left unanswered, the run
    ends with that request. *)
Inductive Event :=
| EvRequest (req : HttpRequest) (newSessionId : string)
| EvResponseClosed (sessionId : string)
| EvTransportClosed (t : Transport)
| EvTimer (i : nat)
| EvClock (now : Z).

Definition step (e : Event) : HM unit :=
  match e with
  | EvRequest req newSessionId => _ ← listener req newSessionId; mret tt
  | EvResponseClosed sessionId => response_closed sessionId
  | EvTransportClosed t => in_world (onclose t)
  | EvTimer i => in_world (fire i)
  | EvClock now => in_world (modify (set_clock now))
  end.

Fixpoint run (es : list Event) : HM unit :=
  match es with
  | [] => mret tt
  | e :: es' => step e;; run es'
  end.

End Http.

(** ** What happens between two [/mcp] requests *)


Section Between.
Context `{Collaborators}.



End Between.



(** The id the SDK generates is never [__proto__], the one key whose
    assignment would not store a property. *)
Definition event_ok (e : Event) : Prop :=
  match e with
  | EvRequest _ newSessionId => newSessionId ≠ "__proto__"
  | _ => True
  end.

Definition initial_state (t : Z) : HttpState :=
  {| world := initial_world t; sseTransports := ∅ |}.

(** ** Invariants of the process *)

(** A stored client address is absent or a prefix of at most eight
    characters followed by three dots. *)
Definition masked (e : LogEntry) : Prop :=
  clientIp e = None ∨
  ∃ p, clientIp e = Some (p ++ "...") ∧ (String.length p ≤ 8)%nat.

Definition telemetry_ok (w : World) : Prop :=
  totalCallCount w =
    resolve_library_id_count (toolCallStats w) + get_library_docs_count (toolCallStats w) ∧
  Z.of_nat (length (callHistory w)) = Z.min (totalCallCount w) 100 ∧
  Forall masked (callHistory w).

(** Different keys of [sessionStates] hold different objects. *)
Definition store_inj (w : World) : Prop :=
  ∀ k1 k2 l, sessionStates w !! k1 = Some l → sessionStates w !! k2 = Some l → k1 = k2.

(** Every armed timer belongs to an instance whose session object is
    allocated. *)
Definition timers_ok (w : World) : Prop :=
  ∀ i iv, intervals w !! i = Some (Some iv) →
    is_Some (heap w !! srv_state (iv_server iv)).

Definition registry_ok (st : HttpState) : Prop :=
  ∀ id t, sseTransports st !! id = Some t →
    is_Some (heap (world st) !! srv_state (sse_server t)).

Definition world_ok (w : World) : Prop :=
  store_ok w ∧ store_inj w ∧ timers_ok w ∧ telemetry_ok w.

Definition state_ok (st : HttpState) : Prop :=
  world_ok (world st) ∧ registry_ok st.

(** A request that reaches the [/mcp] branch. *)
Definition is_mcp_request `{Collaborators} (req : HttpRequest) : Prop :=
  method req ≠ "OPTIONS" ∧ pathname req = "/mcp" ∧
  ∃ ip, getClientIp (peer req) = inr ip.

(** The number of timers that are armed. *)
Definition armed (w : World) : nat :=
  length (filter (λ o : option Interval, is_Some o) (intervals w)).

(** ASCII upper case, the mirror image of [lower]. *)
Definition upper_ascii (c : ascii) : ascii :=
  let n := nat_of_ascii c in
  if ((97 <=? n) && (n <=? 122))%nat then ascii_of_nat (n - 32) else c.

Fixpoint upper (s : string) : string :=
  match s with
  | EmptyString => EmptyString
  | String c s' => String (upper_ascii c) (upper s')
  end.

(** The ports [a], [a + 1], ..., [a + n - 1]. *)
Definition ports_from (a : Z) (n : nat) : list Z :=
  map (λ k, a + Z.of_nat k) (seq 0 n).

(** ** Further data of the examples *)

(** A second client and a world that holds a fresh session for each of the
    two clients. *)
Definition demo_server_b : ServerInstance :=
  {| srv_clientIp := Some "10.0.0.2"; srv_identifier := "10.0.0.2"; srv_state := 1 |}.

Definition demo_world2 (now : Z) : World :=
  set_sessionStates (<["10.0.0.1" := 0%nat]> (<["10.0.0.2" := 1%nat]> ∅))
    (set_heap [new_session; new_session] (initial_world now)).

(** A request of the first client. *)
Definition demo_http (m p : string) (sid : option string) (msg : ToolCall) : HttpRequest :=
  {| method := m; url := Some {| url_pathname := p; url_sessionId := sid |};
     peer := demo_request; message := msg |}.

(** A request of the first client whose target and [Host] header do not
    make a URL. *)
Definition demo_http_unparsed (m : string) (msg : ToolCall) : HttpRequest :=
  {| method := m; url := None; peer := demo_request; message := msg |}.

(** A request that arrives through a proxy for another client. *)
Definition demo_http_forwarded (m p : string) (sid : option string) (msg : ToolCall)
    : HttpRequest :=
  {| method := m; url := Some {| url_pathname := p; url_sessionId := sid |};
     peer := {| x_forwarded_for := Some (HString "203.0.113.7,10.0.0.1");
                remoteAddress := Some "10.0.0.1" |};
     message := msg |}.

Definition demo_transport : Transport :=
  {| tr_checkInterval := 0; tr_sessionIdentifier := "10.0.0.1" |}.

(** ** Properties *)

Section Properties.
Context `{Collaborators}.

Lemma bind_run {A B} (c : M A) (k : A → M B) w a w' :
  c w = Some (a, w') → (c ≫= k) w = k a w'.
Proof. intros Hc. unfold mbind, M_bind. now rewrite Hc. Qed.

Lemma readSession_run l w s :
  heap w !! l = Some s → readSession l w = Some (s, w).
Proof. intros Hl. unfold readSession. now rewrite Hl. Qed.

Lemma writeSession_run l f w s :
  heap w !! l = Some s →
  writeSession l f w = Some (tt, set_heap (<[l := f s]> (heap w)) w).
Proof.
  intros Hl. unfold writeSession.
  rewrite (bind_run _ _ _ _ _ (readSession_run _ _ _ Hl)). reflexivity.
Qed.

Lemma lookup_written (h : list SessionState) l s s' :
  h !! l = Some s → <[l := s']> h !! l = Some s'.
Proof. intros Hl. apply list_lookup_insert_eq. eapply lookup_lt_Some, Hl. Qed.

Lemma slice_last_100_short (h : list LogEntry) :
  (length h ≤ 100)%nat → slice_last_100 h = h.
Proof.
  intros Hle. unfold slice_last_100.
  replace (length h - 100)%nat with 0%nat by lia. reflexivity.
Qed.

Lemma slice_last_100_length (h : list LogEntry) :
  (length (slice_last_100 h) ≤ 100)%nat.
Proof. unfold slice_last_100. rewrite length_drop. lia. Qed.

Lemma slice_last_100_snoc (h : list LogEntry) e :
  slice_last_100 (slice_last_100 h ++ [e]) = slice_last_100 (h ++ [e]).
Proof.
  destruct (decide (length h ≤ 100)%nat) as [Hle|Hgt].
  - now rewrite (slice_last_100_short h).
  - unfold slice_last_100. rewrite !length_app, length_drop. simpl.
    replace (length h - (length h - 100) + 1 - 100)%nat with 1%nat by lia.
    rewrite !drop_app_le by (rewrite ?length_drop; lia).
    rewrite drop_drop. f_equal. f_equal. lia.
Qed.

Lemma slice_last_100_app (h l : list LogEntry) :
  (length h ≤ 100)%nat →
  fold_left (λ acc e, slice_last_100 (acc ++ [e])) l h = slice_last_100 (h ++ l).
Proof.
  revert h. induction l as [|e l IH]; intros h Hle; simpl.
  - rewrite app_nil_r. symmetry. now apply slice_last_100_short.
  - rewrite IH by apply slice_last_100_length.
    clear IH. revert h Hle. induction l as [|e' l IH] using rev_ind; intros h Hle.
    + rewrite !app_nil_r.
      rewrite (slice_last_100_short (slice_last_100 _)) by apply slice_last_100_length.
      reflexivity.
    + rewrite !app_assoc. rewrite <- slice_last_100_snoc.
      rewrite IH by exact Hle.
      rewrite slice_last_100_snoc. now rewrite <- !app_assoc.
Qed.

(** What one [logToolCall] does to the world. *)
Lemma logToolCall_run t q lib ip ok w :
  ∃ w', logToolCall t q lib ip ok w = Some (tt, w') ∧
    clock w' = clock w ∧ heap w' = heap w ∧
    sessionStates w' = sessionStates w ∧ intervals w' = intervals w ∧
    backendCalls w' = backendCalls w ∧
    totalCallCount w' = totalCallCount w + 1 ∧
    toolCallStats w' = bump t (toolCallStats w) ∧
    callHistory w' =
      slice_last_100 (callHistory w ++ [logEntry (clock w) t q lib ip ok]).
Proof.
  unfold logToolCall, mbind, M_bind, modify, gets, get, emit, mret, M_ret. simpl.
  destruct (100 <? length (callHistory w ++ [logEntry (clock w) t q lib ip ok]))%nat eqn:Hlen;
    simpl; eexists; (split; [reflexivity|]); simpl; repeat split; try reflexivity.
  apply Nat.ltb_ge in Hlen. symmetry. now apply slice_last_100_short.
Qed.

Lemma modify_run {B} f (k : unit → M B) w :
  (modify f ≫= k) w = k tt (f w).
Proof. reflexivity. Qed.

Lemma gets_run {A B} (g : World → A) (k : A → M B) w :
  (gets g ≫= k) w = k (g w) w.
Proof. reflexivity. Qed.

(** A sequence of records, field by field. *)
Lemma record_all_run ops w :
  ∃ w', record_all ops w = Some (tt, w') ∧
    totalCallCount w' = totalCallCount w + Z.of_nat (length ops) ∧
    callHistory w' =
      fold_left (λ acc e, slice_last_100 (acc ++ [e])) (map entry_of ops) (callHistory w).
Proof.
  revert w. induction ops as [|a ops IH]; intros w.
  - exists w. simpl. repeat split. lia.
  - cbn [record_all]. unfold record_at.
    destruct (logToolCall_run (la_tool a) (la_query a) (la_libraryId a)
                (la_clientIp a) (la_success a) (set_clock (la_time a) w))
      as (w1 & Hrun & _ & _ & _ & _ & _ & Htot & _ & Hhist).
    destruct (IH w1) as (w2 & Hrun2 & Htot2 & Hhist2).
    exists w2. split.
    + unfold mbind, M_bind, modify at 1. unfold mbind, M_bind in Hrun.
      now rewrite Hrun.
    + split.
      * rewrite Htot2, Htot. simpl. lia.
      * rewrite Hhist2, Hhist. reflexivity.
Qed.

(** A [get-library-docs] call that the gate stops. *)
Lemma get_library_docs_rejected srv id tk tp w s :
  heap w !! srv_state srv = Some s →
  resolveLibraryIdCalled s = false →
  String.prefix "/" id = false →
  get_library_docs srv id tk tp w = Some (text_result MUST_RESOLVE_FIRST, w).
Proof.
  intros Hl Hres Hpre. unfold get_library_docs. cbv zeta.
  rewrite (bind_run _ _ _ _ _ (readSession_run _ _ _ Hl)).
  rewrite Hres, Hpre. reflexivity.
Qed.

(** A [get-library-docs] call that the gate lets through, field by field. *)
Lemma get_library_docs_admitted srv id tk tp w s :
  heap w !! srv_state srv = Some s →
  resolveLibraryIdCalled s = true ∨ String.prefix "/" id = true →
  let opts := {| tokens := default DEFAULT_MINIMUM_TOKENS tk; topic := default "" tp |} in
  let q := Some (or_else (Some (default "" tp)) "general") in
  let resp := fetchLibraryDocumentation id opts (srv_clientIp srv) in
  let e ok := logEntry (clock w) GetLibraryDocs q (Some id) (srv_clientIp srv) ok in
  ∃ r w', get_library_docs srv id tk tp w = Some (r, w') ∧
    heap w' = <[srv_state srv := set_getLibraryDocsCalled true s]> (heap w) ∧
    backendCalls w' = (backendCalls w ++ [FetchCall id opts (srv_clientIp srv)])%list ∧
    sessionStates w' = sessionStates w ∧ clock w' = clock w ∧
    intervals w' = intervals w ∧
    (truthy resp = true →
       r = text_result (default "" resp) ∧
       totalCallCount w' = totalCallCount w + 1 ∧
       toolCallStats w' = bump GetLibraryDocs (toolCallStats w) ∧
       callHistory w' = slice_last_100 (callHistory w ++ [e true])) ∧
    (truthy resp = false →
       r = text_result DOCS_NOT_FOUND ∧
       totalCallCount w' = totalCallCount w + 2 ∧
       toolCallStats w' = bump GetLibraryDocs (bump GetLibraryDocs (toolCallStats w)) ∧
       callHistory w' = slice_last_100 (callHistory w ++ [e true; e false])).
Proof.
  intros Hl Hadm opts q resp e. unfold get_library_docs. cbv zeta.
  rewrite (bind_run _ _ _ _ _ (readSession_run _ _ _ Hl)).
  replace (negb (resolveLibraryIdCalled s) && negb (String.prefix "/" id)) with false
    by (destruct Hadm as [-> | ->]; simpl; [reflexivity | now rewrite andb_false_r]).
  rewrite (bind_run _ _ _ _ _ (writeSession_run _ _ _ _ Hl)).
  set (w0 := set_heap _ w).
  destruct (logToolCall_run GetLibraryDocs q (Some id) (srv_clientIp srv) true w0)
    as (w1 & Hrun1 & Hc1 & Hh1 & Hs1 & Hi1 & Hb1 & Ht1 & Hst1 & Hhist1).
  rewrite (bind_run _ _ _ _ _ Hrun1).
  unfold callBackend. rewrite modify_run.
  set (w2 := set_backendCalls _ w1).
  fold opts. fold resp.
  destruct (truthy resp) eqn:Htruthy.
  - exists (text_result (default "" resp)), w2. split; [reflexivity|].
    subst w2 w0. simpl. rewrite Hh1, Hb1, Hs1, Hc1, Hi1. simpl.
    repeat split; try discriminate.
    + rewrite Ht1. reflexivity.
    + rewrite Hst1. reflexivity.
    + rewrite Hhist1. reflexivity.
  - destruct (logToolCall_run GetLibraryDocs q (Some id) (srv_clientIp srv) false w2)
      as (w3 & Hrun3 & Hc3 & Hh3 & Hs3 & Hi3 & Hb3 & Ht3 & Hst3 & Hhist3).
    exists (text_result DOCS_NOT_FOUND), w3. split.
    { rewrite (bind_run _ _ _ _ _ Hrun3). reflexivity. }
    rewrite Hh3, Hb3, Hs3, Hc3, Hi3. subst w2 w0. simpl.
    rewrite Hh1, Hb1, Hs1, Hc1, Hi1. simpl.
    repeat split; try discriminate.
    + rewrite Ht3. simpl. rewrite Ht1. simpl. lia.
    + rewrite Hst3. simpl. rewrite Hst1. reflexivity.
    + rewrite Hhist3. simpl. rewrite Hhist1, Hc1. simpl.
      rewrite slice_last_100_snoc. now rewrite <- app_assoc.
Qed.

(** A [resolve-library-id] call, field by field. *)
Lemma resolve_library_id_run srv name w s :
  heap w !! srv_state srv = Some s →
  let resp := searchLibraries name (srv_clientIp srv) in
  let e ok := logEntry (clock w) ResolveLibraryId (Some name) None (srv_clientIp srv) ok in
  ∃ r w', resolve_library_id srv name w = Some (r, w') ∧
    heap w' = <[srv_state srv :=
                 {| resolveLibraryIdCalled := true; getLibraryDocsCalled := false;
                    lastResolveLibraryIdTime := Some (clock w) |}]> (heap w) ∧
    backendCalls w' = (backendCalls w ++ [SearchCall name (srv_clientIp srv)])%list ∧
    sessionStates w' = sessionStates w ∧ clock w' = clock w ∧
    intervals w' = intervals w ∧
    (no_results resp = false →
       r = text_result (RESULTS_HEADER ++ formatSearchResults resp) ∧
       totalCallCount w' = totalCallCount w + 1 ∧
       toolCallStats w' = bump ResolveLibraryId (toolCallStats w) ∧
       callHistory w' = slice_last_100 (callHistory w ++ [e true])) ∧
    (no_results resp = true →
       r = text_result (if containsErrorMessage name then NO_MATCH_FOR_ERROR_ANALYSIS
                        else or_else (error resp) FAILED_TO_RETRIEVE) ∧
       totalCallCount w' = totalCallCount w + 2 ∧
       toolCallStats w' = bump ResolveLibraryId (bump ResolveLibraryId (toolCallStats w)) ∧
       callHistory w' = slice_last_100 (callHistory w ++ [e true; e false])).
Proof.
  intros Hl resp e. unfold resolve_library_id. cbv zeta.
  rewrite (bind_run _ _ _ _ _ (writeSession_run _ _ _ _ Hl)).
  set (wa := set_heap _ w).
  assert (Hla : heap wa !! srv_state srv = Some (set_resolveLibraryIdCalled true s))
    by (apply (lookup_written _ _ s), Hl).
  rewrite (bind_run _ _ _ _ _ (writeSession_run _ _ _ _ Hla)).
  set (wb := set_heap _ wa).
  assert (Hlb : heap wb !! srv_state srv =
                Some (set_getLibraryDocsCalled false (set_resolveLibraryIdCalled true s)))
    by (eapply lookup_written, Hla).
  rewrite gets_run.
  rewrite (bind_run _ _ _ _ _ (writeSession_run _ _ _ _ Hlb)).
  set (w0 := set_heap _ wb).
  assert (Hheap : heap w0 = <[srv_state srv :=
                 {| resolveLibraryIdCalled := true; getLibraryDocsCalled := false;
                    lastResolveLibraryIdTime := Some (clock w) |}]> (heap w)).
  { subst w0 wb wa. simpl. now rewrite !list_insert_insert_eq. }
  assert (Hclock : clock w0 = clock w) by reflexivity.
  destruct (logToolCall_run ResolveLibraryId (Some name) None (srv_clientIp srv) true w0)
    as (w1 & Hrun1 & Hc1 & Hh1 & Hs1 & Hi1 & Hb1 & Ht1 & Hst1 & Hhist1).
  rewrite (bind_run _ _ _ _ _ Hrun1).
  unfold callBackend. rewrite modify_run.
  set (w2 := set_backendCalls _ w1).
  fold resp.
  destruct (no_results resp) eqn:Hno.
  - destruct (logToolCall_run ResolveLibraryId (Some name) None (srv_clientIp srv) false w2)
      as (w3 & Hrun3 & Hc3 & Hh3 & Hs3 & Hi3 & Hb3 & Ht3 & Hst3 & Hhist3).
    eexists _, w3. split.
    { rewrite (bind_run _ _ _ _ _ Hrun3). reflexivity. }
    rewrite Hh3, Hb3, Hs3, Hc3, Hi3. subst w2. simpl.
    rewrite Hh1, Hb1, Hs1, Hc1, Hi1, Hheap.
    repeat split; try discriminate.
    + rewrite Ht3. simpl. rewrite Ht1. simpl. lia.
    + rewrite Hst3. simpl. rewrite Hst1. reflexivity.
    + rewrite Hhist3. simpl. rewrite Hhist1, Hc1. simpl.
      rewrite slice_last_100_snoc. now rewrite <- app_assoc.
  - eexists _, w2. split; [reflexivity|].
    subst w2. simpl. rewrite Hh1, Hb1, Hs1, Hc1, Hi1, Hheap.
    repeat split; try discriminate.
    + rewrite Ht1. reflexivity.
    + rewrite Hst1. reflexivity.
    + rewrite Hhist1. reflexivity.
Qed.

(** The timer callback, case by case. *)
Lemma checkInterval_run srv w s :
  heap w !! srv_state srv = Some s →
  checkInterval srv w =
    if resolveLibraryIdCalled s && negb (getLibraryDocsCalled s) &&
       Z.ltb RESOLVE_TIMEOUT (clock w - default 0 (lastResolveLibraryIdTime s))
    then Some (tt,
      set_heap (<[srv_state srv :=
                  {| resolveLibraryIdCalled := false; getLibraryDocsCalled := false;
                     lastResolveLibraryIdTime := lastResolveLibraryIdTime s |}]> (heap w))
        (set_console (console w ++ [WatchdogWarning (srv_identifier srv)]) w))
    else Some (tt, w).
Proof.
  intros Hl. unfold checkInterval.
  rewrite (bind_run _ _ _ _ _ (readSession_run _ _ _ Hl)).
  destruct (resolveLibraryIdCalled s && negb (getLibraryDocsCalled s)); [|reflexivity].
  rewrite gets_run. cbv zeta. simpl andb.
  destruct (Z.ltb _ _); [|reflexivity].
  unfold emit. rewrite modify_run.
  set (w1 := set_console _ w).
  assert (Hl1 : heap w1 !! srv_state srv = Some s) by exact Hl.
  rewrite (bind_run _ _ _ _ _ (writeSession_run _ _ _ _ Hl1)).
  set (w2 := set_heap _ w1).
  assert (Hl2 : heap w2 !! srv_state srv = Some (set_resolveLibraryIdCalled false s))
    by (apply (lookup_written _ _ s), Hl1).
  rewrite (writeSession_run _ _ _ _ Hl2).
  subst w2 w1. simpl. unfold set_heap. simpl.
  now rewrite list_insert_insert_eq.
Qed.


(** *** Facts about the order of binary64 numbers *)

Lemma SFcompare_key x y :
  SFcompare x y =
    if sf_is_nan x || sf_is_nan y then None else Some (lex3 (sf_key x) (sf_key y)).
Proof.
  destruct x as [sx|sx| |sx mx ex], y as [sy|sy| |sy my ey];
    try destruct sx; try destruct sy; try reflexivity; simpl.
  rewrite Z.compare_opp, (Z.compare_antisym ex ey).
  destruct (Z.compare ex ey); reflexivity.
Qed.

Lemma lex3_spec a b :
  match lex3 a b with
  | Lt => a.1.1 < b.1.1 ∨ (a.1.1 = b.1.1 ∧ (a.1.2 < b.1.2 ∨ (a.1.2 = b.1.2 ∧ a.2 < b.2)))
  | Eq => a = b
  | Gt => b.1.1 < a.1.1 ∨ (a.1.1 = b.1.1 ∧ (b.1.2 < a.1.2 ∨ (a.1.2 = b.1.2 ∧ b.2 < a.2)))
  end.
Proof.
  destruct a as [[a1 a2] a3], b as [[b1 b2] b3]. simpl.
  destruct (Z.compare_spec a1 b1); [|lia..].
  destruct (Z.compare_spec a2 b2); [|lia..].
  destruct (Z.compare_spec a3 b3); [congruence|lia..].
Qed.

Lemma lex3_antisym a b : lex3 b a = CompOpp (lex3 a b).
Proof.
  pose proof (lex3_spec a b) as Hab. pose proof (lex3_spec b a) as Hba.
  destruct (lex3 a b), (lex3 b a); simpl; try reflexivity; subst; try lia.
  all: try (inversion Hab; lia); try (inversion Hba; lia).
Qed.

Lemma lex3_trans_le_lt a b c :
  le_cmp (lex3 a b) = true → lex3 b c = Lt → lex3 a c = Lt.
Proof.
  pose proof (lex3_spec a b) as Hab. pose proof (lex3_spec b c) as Hbc.
  pose proof (lex3_spec a c) as Hac.
  intros Hle Hlt. rewrite Hlt in Hbc.
  destruct (lex3 a b); try discriminate; destruct (lex3 a c); try reflexivity;
    subst; try lia.
Qed.

Lemma ltb_key x y :
  PrimFloat.ltb x y =
    negb (sf_is_nan (Prim2SF x) || sf_is_nan (Prim2SF y)) &&
    lt_cmp (lex3 (sf_key (Prim2SF x)) (sf_key (Prim2SF y))).
Proof.
  rewrite ltb_spec. unfold SFltb. rewrite SFcompare_key.
  destruct (_ || _); [reflexivity|]. simpl. now destruct (lex3 _ _).
Qed.

Lemma leb_key x y :
  PrimFloat.leb x y =
    negb (sf_is_nan (Prim2SF x) || sf_is_nan (Prim2SF y)) &&
    le_cmp (lex3 (sf_key (Prim2SF x)) (sf_key (Prim2SF y))).
Proof.
  rewrite leb_spec. unfold SFleb. rewrite SFcompare_key.
  destruct (_ || _); [reflexivity|]. simpl. now destruct (lex3 _ _).
Qed.

Lemma leb_not_ltb x y : PrimFloat.leb x y = true → PrimFloat.ltb y x = false.
Proof.
  rewrite leb_key, ltb_key. intros [Hnan Hle]%andb_true_iff.
  rewrite orb_comm, Hnan. simpl.
  rewrite lex3_antisym. now destruct (lex3 _ _).
Qed.

Lemma not_ltb_leb x y :
  PrimFloat.ltb y x = false → PrimFloat.leb y y = true → PrimFloat.leb x x = true →
  PrimFloat.leb x y = true.
Proof.
  rewrite !leb_key, ltb_key. intros Hlt [Hy _]%andb_true_iff [Hx _]%andb_true_iff.
  rewrite orb_diag in Hx, Hy. apply negb_true_iff in Hx, Hy.
  rewrite Hx, Hy in *. simpl in *.
  rewrite lex3_antisym in Hlt. now destruct (lex3 _ _).
Qed.

Lemma leb_ltb_trans x y z :
  PrimFloat.leb x y = true → PrimFloat.ltb y z = true → PrimFloat.ltb x z = true.
Proof.
  rewrite leb_key, !ltb_key.
  intros [Hxy Hle]%andb_true_iff [Hyz Hlt]%andb_true_iff.
  apply negb_true_iff, orb_false_iff in Hxy as [Hx Hy], Hyz as [_ Hz].
  rewrite Hx, Hz. simpl.
  rewrite (lex3_trans_le_lt _ _ _ Hle); [reflexivity|].
  now destruct (lex3 (sf_key (Prim2SF y)) _).
Qed.

Lemma leb_refl_of_leb x y :
  PrimFloat.leb x y = true → PrimFloat.leb x x = true ∧ PrimFloat.leb y y = true.
Proof.
  rewrite !leb_key. intros [Hxy _]%andb_true_iff.
  apply negb_true_iff, orb_false_iff in Hxy as [Hx Hy].
  rewrite Hx, Hy. simpl.
  pose proof (lex3_spec (sf_key (Prim2SF x)) (sf_key (Prim2SF x))) as Hxx.
  pose proof (lex3_spec (sf_key (Prim2SF y)) (sf_key (Prim2SF y))) as Hyy.
  split.
  - destruct (lex3 (sf_key (Prim2SF x)) _); try reflexivity; lia.
  - destruct (lex3 (sf_key (Prim2SF y)) _); try reflexivity; lia.
Qed.

(** *** The claims *)

(** C5. The [tokens] parameter of [get-library-docs] is clamped at
    [DEFAULT_MINIMUM_TOKENS].  The transform of its schema is a clamp: a
    number below the floor becomes the floor, a number at or above the
    floor is returned unchanged, applying the transform twice is applying
    it once, and the transform preserves the order of its arguments.  The
    schema applies that transform to every number it accepts, which is
    every number but NaN, and lets an omitted [tokens] through as
    undefined.  The handler receives the clamped number: a call that
    passes the gate fetches with the transform of the number the caller
    gave, and with the floor when the caller gave none; a call with NaN
    is refused before the handler runs. *)
Theorem transform_tokens_clamp :
  (∀ x, PrimFloat.ltb x DEFAULT_MINIMUM_TOKENS = true →
        transform_tokens x = DEFAULT_MINIMUM_TOKENS) ∧
  (∀ x, PrimFloat.leb DEFAULT_MINIMUM_TOKENS x = true → transform_tokens x = x) ∧
  (∀ x, transform_tokens (transform_tokens x) = transform_tokens x) ∧
  (∀ x y, PrimFloat.leb x y = true →
          PrimFloat.leb (transform_tokens x) (transform_tokens y) = true) ∧
  (∀ v, PrimFloat.is_nan v = false →
        tokens_schema (Some v) = Some (Some (transform_tokens v))) ∧
  tokens_schema None = Some None ∧
  (∀ srv id tp tk w s,
     heap w !! srv_state srv = Some s →
     resolveLibraryIdCalled s = true ∨ String.prefix "/" id = true →
     match tk with Some v => PrimFloat.is_nan v = false | None => True end →
     ∃ r w', handleRequest srv (CallDocs id tp tk) w = Some (ToolReply r, w') ∧
       backendCalls w' =
         (backendCalls w ++
            [FetchCall id
               {| tokens := match tk with
                            | Some v => transform_tokens v
                            | None => DEFAULT_MINIMUM_TOKENS
                            end;
                  topic := default "" tp |} (srv_clientIp srv)])%list) ∧
  (∀ srv id tp v w,
     PrimFloat.is_nan v = true →
     handleRequest srv (CallDocs id tp (Some v)) w = Some (InvalidParams, w)).
Proof.
  assert (Hbelow : ∀ x, PrimFloat.ltb x DEFAULT_MINIMUM_TOKENS = true →
                        transform_tokens x = DEFAULT_MINIMUM_TOKENS).
  { intros x Hx. unfold transform_tokens. now rewrite Hx. }
  assert (Hkeep : ∀ x, PrimFloat.ltb x DEFAULT_MINIMUM_TOKENS = false →
                       transform_tokens x = x).
  { intros x Hx. unfold transform_tokens. now rewrite Hx. }
  assert (Hfloor : PrimFloat.leb DEFAULT_MINIMUM_TOKENS DEFAULT_MINIMUM_TOKENS = true)
    by reflexivity.
  assert (Hschema : ∀ v, PrimFloat.is_nan v = false →
                         tokens_schema (Some v) = Some (Some (transform_tokens v))).
  { intros v Hv. unfold tokens_schema. now rewrite Hv. }
  split; [exact Hbelow|].
  split; [intros x Hx; apply Hkeep, leb_not_ltb, Hx|].
  split.
  { intros x. destruct (PrimFloat.ltb x DEFAULT_MINIMUM_TOKENS) eqn:Hx.
    + rewrite (Hbelow x Hx). now apply Hkeep.
    + rewrite (Hkeep x Hx). now apply Hkeep. }
  split.
  { intros x y Hxy.
    destruct (leb_refl_of_leb _ _ Hxy) as [Hxx Hyy].
    destruct (PrimFloat.ltb x DEFAULT_MINIMUM_TOKENS) eqn:Hx,
             (PrimFloat.ltb y DEFAULT_MINIMUM_TOKENS) eqn:Hy.
    + rewrite (Hbelow x Hx), (Hbelow y Hy). exact Hfloor.
    + rewrite (Hbelow x Hx), (Hkeep y Hy). now apply not_ltb_leb.
    + rewrite (leb_ltb_trans _ _ _ Hxy Hy) in Hx. discriminate.
    + rewrite (Hkeep x Hx), (Hkeep y Hy). exact Hxy. }
  split; [exact Hschema|]. split; [reflexivity|]. split.
  - intros srv id tp tk w s Hl Hadm Htk.
    assert (Hparsed : tokens_schema tk = Some (option_map transform_tokens tk)).
    { destruct tk as [v|]; [exact (Hschema v Htk)|reflexivity]. }
    destruct (get_library_docs_admitted srv id (option_map transform_tokens tk) tp w s
                Hl Hadm) as (r & w' & Hrun & _ & Hcalls & _).
    exists r, w'. split.
    + cbn [handleRequest]. rewrite Hparsed. now rewrite (bind_run _ _ _ _ _ Hrun).
    + rewrite Hcalls. now destruct tk.
  - intros srv id tp v w Hv. cbn [handleRequest]. unfold tokens_schema.
    now rewrite Hv.
Qed.

(** C6. Starting from a history of at most 100 entries, after any sequence
    of records the history has at most 100 entries and holds the last 100
    of the old entries followed by the new ones; from the empty history of
    a fresh process it is the last 100 records in arrival order, exactly
    100 of them once 100 records have arrived, so after 150 records it is
    records 51 to 150. *)
Theorem callHistory_last_100 (w : World) (ops : list LogArgs) :
  (length (callHistory w) ≤ 100)%nat →
  ∃ w', record_all ops w = Some (tt, w') ∧
    (length (callHistory w') ≤ 100)%nat ∧
    callHistory w' = slice_last_100 (callHistory w ++ map entry_of ops) ∧
    (callHistory w = [] →
       callHistory w' = drop (length ops - 100) (map entry_of ops) ∧
       ((100 ≤ length ops)%nat → length (callHistory w') = 100%nat) ∧
       (length ops = 150%nat → callHistory w' = drop 50 (map entry_of ops))).
Proof.
  intros Hle.
  destruct (record_all_run ops w) as (w' & Hrun & _ & Hhist).
  rewrite slice_last_100_app in Hhist by exact Hle.
  exists w'. split; [exact Hrun|]. split; [|split; [exact Hhist|]].
  - rewrite Hhist. apply slice_last_100_length.
  - intros Hnil. rewrite Hhist, Hnil. simpl. unfold slice_last_100.
    rewrite length_map. split; [reflexivity|]. split.
    + intros Hlen. rewrite length_drop, length_map. lia.
    + intros H150. now rewrite H150.
Qed.

(** C1. In a session whose [resolveLibraryIdCalled] is false, a
    [get-library-docs] call whose id does not begin with a slash returns
    the sequencing guidance, leaves the world as it was and makes no
    backend call; a call whose id begins with a slash passes the gate
    whatever the flags are: it marks the session and calls the backend
    fetch once. *)
Theorem gate_guides_before_resolve srv w s id tk tp :
  heap w !! srv_state srv = Some s →
  (resolveLibraryIdCalled s = false → String.prefix "/" id = false →
     ∃ w', get_library_docs srv id tk tp w = Some (text_result MUST_RESOLVE_FIRST, w') ∧
           backendCalls w' = backendCalls w ∧ w' = w) ∧
  (String.prefix "/" id = true →
     ∃ r w', get_library_docs srv id tk tp w = Some (r, w') ∧
       heap w' !! srv_state srv = Some (set_getLibraryDocsCalled true s) ∧
       backendCalls w' =
         (backendCalls w ++
            [FetchCall id {| tokens := default DEFAULT_MINIMUM_TOKENS tk;
                             topic := default "" tp |} (srv_clientIp srv)])%list).
Proof.
  intros Hl. split.
  - intros Hres Hpre. exists w.
    now rewrite (get_library_docs_rejected _ _ _ _ _ _ Hl Hres Hpre).
  - intros Hpre.
    destruct (get_library_docs_admitted srv id tk tp w s Hl (or_intror Hpre))
      as (r & w' & Hrun & Hheap & Hcalls & _).
    exists r, w'. split; [exact Hrun|]. split; [|exact Hcalls].
    rewrite Hheap. eapply lookup_written, Hl.
Qed.

(** C2. In a session whose [resolveLibraryIdCalled] is true every
    [get-library-docs] call of any sequence passes the gate, whatever the
    backend returns: each call reaches the backend fetch, in call order,
    and afterwards [resolveLibraryIdCalled] is still true and
    [getLibraryDocsCalled] is true once a call was made or if it was true
    before. *)
Theorem gate_enables_repeated_docs srv calls w s :
  heap w !! srv_state srv = Some s →
  resolveLibraryIdCalled s = true →
  ∃ rs w' s', docs_calls srv calls w = Some (rs, w') ∧
    length rs = length calls ∧
    backendCalls w' =
      (backendCalls w ++
         map (λ a, FetchCall (da_id a) (fetch_options a) (srv_clientIp srv)) calls)%list ∧
    heap w' !! srv_state srv = Some s' ∧
    resolveLibraryIdCalled s' = true ∧
    (getLibraryDocsCalled s = true ∨ calls ≠ [] → getLibraryDocsCalled s' = true).
Proof.
  revert w s. induction calls as [|a calls IH]; intros w s Hl Hres.
  - exists [], w, s. simpl. rewrite app_nil_r. repeat split; try assumption.
    intros [Hd|Hne]; [exact Hd|congruence].
  - destruct (get_library_docs_admitted srv (da_id a) (da_tokens a) (da_topic a) w s
                Hl (or_introl Hres))
      as (r & w1 & Hrun & Hheap & Hcalls & _).
    assert (Hl1 : heap w1 !! srv_state srv = Some (set_getLibraryDocsCalled true s))
      by (rewrite Hheap; eapply lookup_written, Hl).
    destruct (IH w1 _ Hl1 Hres) as (rs & w' & s' & Hrun' & Hlen & Hcalls' & Hl' & Hres' & Hdocs').
    exists (r :: rs), w', s'. split.
    { cbn [docs_calls]. rewrite (bind_run _ _ _ _ _ Hrun).
      rewrite (bind_run _ _ _ _ _ Hrun'). reflexivity. }
    split; [simpl; now rewrite Hlen|].
    split; [rewrite Hcalls', Hcalls; simpl; now rewrite <- app_assoc|].
    split; [exact Hl'|]. split; [exact Hres'|].
    intros _. apply Hdocs'. now left.
Qed.

(** C4. The timer's period is shorter than the timeout, and [connect]
    installs a timer of that period for its instance.  When the timer
    of a server instance fires on a session with
    [resolveLibraryIdCalled] true and [getLibraryDocsCalled] false whose
    last resolve is more than the timeout ago, both flags become false
    and a warning naming the session is written; on a session with
    [getLibraryDocsCalled] true the timer changes nothing, whatever the
    clock reads. *)
Theorem watchdog_resets_stale_session i iv w s :
  intervals w !! i = Some (Some iv) →
  heap w !! srv_state (iv_server iv) = Some s →
  WATCHDOG_PERIOD < RESOLVE_TIMEOUT ∧
  (∀ srv w0, ∃ t w1, connect srv w0 = Some (t, w1) ∧
     intervals w1 !! tr_checkInterval t =
       Some (Some {| iv_period := WATCHDOG_PERIOD; iv_server := srv |})) ∧
  (resolveLibraryIdCalled s = true → getLibraryDocsCalled s = false →
   RESOLVE_TIMEOUT < clock w - default 0 (lastResolveLibraryIdTime s) →
     ∃ w' s', fire i w = Some (tt, w') ∧
       heap w' !! srv_state (iv_server iv) = Some s' ∧
       resolveLibraryIdCalled s' = false ∧ getLibraryDocsCalled s' = false ∧
       console w' = (console w ++ [WatchdogWarning (srv_identifier (iv_server iv))])%list) ∧
  (getLibraryDocsCalled s = true → fire i w = Some (tt, w)).
Proof.
  intros Hi Hl.
  assert (Hfire : fire i w = checkInterval (iv_server iv) w).
  { unfold fire. rewrite gets_run, Hi. reflexivity. }
  rewrite Hfire, (checkInterval_run _ _ _ Hl).
  split; [reflexivity|]. split.
  { intros srv w0. eexists _, _. split; [reflexivity|]. simpl.
    now rewrite lookup_app_r, Nat.sub_diag by lia. }
  split.
  - intros Hres Hdocs Hold. rewrite Hres, Hdocs.
    apply Z.ltb_lt in Hold. rewrite Hold. simpl.
    eexists _, _. split; [reflexivity|]. simpl.
    split; [eapply lookup_written, Hl|]. repeat split.
  - intros Hdocs. rewrite Hdocs, andb_false_r. reflexivity.
Qed.

(** The three failure and listing texts never coincide with each other. *)
Lemma fixed_failures_are_not_listings body :
  NO_MATCH_FOR_ERROR_ANALYSIS ≠ RESULTS_HEADER ++ body ∧
  FAILED_TO_RETRIEVE ≠ RESULTS_HEADER ++ body.
Proof. split; intros Heq; discriminate Heq. Qed.

(** C8. A [resolve-library-id] call returns a result with one text item
    and leaves its session with [resolveLibraryIdCalled] true,
    [getLibraryDocsCalled] false and the current clock reading as
    [lastResolveLibraryIdTime], whether or not the search finds anything.
    When the search has no results the text is the failure message (the
    error-analysis text, else the search's own error, else the fixed
    failure text), and the two fixed texts differ from every listing. *)
Theorem resolve_sets_gate srv name w s :
  heap w !! srv_state srv = Some s →
  ∃ r w', resolve_library_id srv name w = Some (r, w') ∧
    (∃ text, r = text_result text) ∧
    heap w' !! srv_state srv =
      Some {| resolveLibraryIdCalled := true; getLibraryDocsCalled := false;
              lastResolveLibraryIdTime := Some (clock w) |} ∧
    (no_results (searchLibraries name (srv_clientIp srv)) = true →
       r = text_result
             (if containsErrorMessage name then NO_MATCH_FOR_ERROR_ANALYSIS
              else or_else (error (searchLibraries name (srv_clientIp srv)))
                     FAILED_TO_RETRIEVE) ∧
       (containsErrorMessage name = true ∨
        truthy (error (searchLibraries name (srv_clientIp srv))) = false →
          ∀ body, r ≠ text_result (RESULTS_HEADER ++ body))) ∧
    (no_results (searchLibraries name (srv_clientIp srv)) = false →
       r = text_result
             (RESULTS_HEADER ++
              formatSearchResults (searchLibraries name (srv_clientIp srv)))).
Proof.
  intros Hl.
  destruct (resolve_library_id_run srv name w s Hl)
    as (r & w' & Hrun & Hheap & _ & _ & _ & _ & Hfound & Hnone).
  exists r, w'. split; [exact Hrun|]. split.
  { destruct (no_results (searchLibraries name (srv_clientIp srv))) eqn:Hno.
    - destruct (Hnone eq_refl) as [-> _]. eauto.
    - destruct (Hfound eq_refl) as [-> _]. eauto. }
  split; [rewrite Hheap; eapply lookup_written, Hl|]. split.
  - intros Hno. destruct (Hnone Hno) as [-> _]. split; [reflexivity|].
    intros Hfixed body [= Heq].
    destruct (fixed_failures_are_not_listings body) as [Hnm Hfr].
    destruct (containsErrorMessage name); [exact (Hnm Heq)|].
    destruct Hfixed as [Hce|Herr]; [discriminate|].
    unfold or_else, truthy in *.
    destruct (error (searchLibraries name (srv_clientIp srv))) as [e|]; [|exact (Hfr Heq)].
    destruct (String.eqb e ""); [exact (Hfr Heq)|discriminate].
  - intros Hno. now destruct (Hfound Hno) as [-> _].
Qed.


(** C10. A [resolve-library-id] call whose search has no results, and a
    [get-library-docs] call that passed the gate and whose fetch returned
    nothing, each append two records for the one call, the first with
    [success] true and the second with [success] false (after which the
    history is cut to its last 100 entries), and add two to the total
    counter and two to the counter of the tool. *)
Theorem empty_result_is_recorded_twice srv w s :
  heap w !! srv_state srv = Some s →
  (∀ name,
     no_results (searchLibraries name (srv_clientIp srv)) = true →
     ∃ r w' e1 e2,
       resolve_library_id srv name w = Some (r, w') ∧
       success e1 = true ∧ success e2 = false ∧
       tool e1 = tool_string ResolveLibraryId ∧ tool e2 = tool_string ResolveLibraryId ∧
       callHistory w' = slice_last_100 (callHistory w ++ [e1; e2]) ∧
       ((length (callHistory w) + 2 ≤ 100)%nat →
          callHistory w' = (callHistory w ++ [e1; e2])%list) ∧
       totalCallCount w' = totalCallCount w + 2 ∧
       stat ResolveLibraryId (toolCallStats w') =
         stat ResolveLibraryId (toolCallStats w) + 2 ∧
       stat GetLibraryDocs (toolCallStats w') = stat GetLibraryDocs (toolCallStats w)) ∧
  (∀ id tk tp,
     resolveLibraryIdCalled s = true ∨ String.prefix "/" id = true →
     truthy (fetchLibraryDocumentation id
               {| tokens := default DEFAULT_MINIMUM_TOKENS tk; topic := default "" tp |}
               (srv_clientIp srv)) = false →
     ∃ r w' e1 e2,
       get_library_docs srv id tk tp w = Some (r, w') ∧
       success e1 = true ∧ success e2 = false ∧
       tool e1 = tool_string GetLibraryDocs ∧ tool e2 = tool_string GetLibraryDocs ∧
       callHistory w' = slice_last_100 (callHistory w ++ [e1; e2]) ∧
       ((length (callHistory w) + 2 ≤ 100)%nat →
          callHistory w' = (callHistory w ++ [e1; e2])%list) ∧
       totalCallCount w' = totalCallCount w + 2 ∧
       stat GetLibraryDocs (toolCallStats w') =
         stat GetLibraryDocs (toolCallStats w) + 2 ∧
       stat ResolveLibraryId (toolCallStats w') =
         stat ResolveLibraryId (toolCallStats w)).
Proof.
  intros Hl. split.
  - intros name Hno.
    destruct (resolve_library_id_run srv name w s Hl)
      as (r & w' & Hrun & _ & _ & _ & _ & _ & _ & Hnone).
    destruct (Hnone Hno) as (_ & Ht & Hst & Hh).
    exists r, w',
      (logEntry (clock w) ResolveLibraryId (Some name) None (srv_clientIp srv) true),
      (logEntry (clock w) ResolveLibraryId (Some name) None (srv_clientIp srv) false).
    split; [exact Hrun|].
    do 4 (split; [reflexivity|]). split; [exact Hh|]. split.
    { intros Hlen. rewrite Hh. apply slice_last_100_short.
      rewrite length_app. simpl. lia. }
    rewrite Ht, Hst. simpl. repeat split; lia.
  - intros id tk tp Hadm Hnothing.
    destruct (get_library_docs_admitted srv id tk tp w s Hl Hadm)
      as (r & w' & Hrun & _ & _ & _ & _ & _ & _ & Hnone).
    destruct (Hnone Hnothing) as (_ & Ht & Hst & Hh).
    exists r, w',
      (logEntry (clock w) GetLibraryDocs (Some (or_else (Some (default "" tp)) "general"))
         (Some id) (srv_clientIp srv) true),
      (logEntry (clock w) GetLibraryDocs (Some (or_else (Some (default "" tp)) "general"))
         (Some id) (srv_clientIp srv) false).
    split; [exact Hrun|].
    do 4 (split; [reflexivity|]). split; [exact Hh|]. split.
    { intros Hlen. rewrite Hh. apply slice_last_100_short.
      rewrite length_app. simpl. lia. }
    rewrite Ht, Hst. simpl. repeat split; lia.
Qed.

(** [startServer_on] unfolded once. *)
Lemma startServer_step listen initialPort listening port maxAttempts :
  startServer_on listen initialPort listening port maxAttempts =
    match listen port with
    | Listening => (map RunningOn (listening ++ [port])%list, Running port)
    | ListenError code =>
        if is_EADDRINUSE code && Z.ltb port (initialPort + maxAttempts)
        then (PortInUse port (port + 1) ::
                fst (startServer_on listen initialPort (listening ++ [port])%list
                       (port + 1) maxAttempts),
              snd (startServer_on listen initialPort (listening ++ [port])%list
                     (port + 1) maxAttempts))
        else ([FailedToStart], Exited 1)
    end.
Proof.
  simp startServer_on. destruct (listen port) as [|code]; simpl; [reflexivity|].
  destruct (is_EADDRINUSE code); simpl; [|reflexivity].
  destruct (Z_lt_dec port (initialPort + maxAttempts)) as [Hlt|Hge]; simpl.
  - apply Z.ltb_lt in Hlt. rewrite Hlt. now simp startServer_on.
  - apply Z.ltb_nlt in Hge. now rewrite Hge.
Qed.

(** Where the run ends does not depend on the callbacks registered. *)
Lemma startServer_on_outcome listen initialPort maxAttempts (n : nat) :
  ∀ port listening listening',
    Z.to_nat (initialPort + maxAttempts - port) = n →
    snd (startServer_on listen initialPort listening port maxAttempts) =
    snd (startServer_on listen initialPort listening' port maxAttempts).
Proof.
  induction n as [n IH] using lt_wf_ind. intros port listening listening' Hn.
  rewrite (startServer_step _ _ listening), (startServer_step _ _ listening').
  destruct (listen port) as [|code]; [reflexivity|].
  destruct (is_EADDRINUSE code); [|reflexivity]. simpl.
  destruct (Z.ltb port (initialPort + maxAttempts)) eqn:Hlt; [|reflexivity].
  apply Z.ltb_lt in Hlt. simpl.
  apply (IH (Z.to_nat (initialPort + maxAttempts - (port + 1)))); lia.
Qed.

(** While the ports are taken and the bound is not reached, [startServer]
    moves on to the next port. *)
Lemma startServer_skips_busy listen initialPort maxAttempts (n : nat) : ∀ port,
  (port + Z.of_nat n ≤ initialPort + maxAttempts)%Z →
  (∀ j, (port ≤ j < port + Z.of_nat n)%Z → is_busy (listen j) = true) →
  snd (startServer listen initialPort port maxAttempts) =
  snd (startServer listen initialPort (port + Z.of_nat n) maxAttempts).
Proof.
  unfold startServer.
  induction n as [|n IH]; intros port Hbound Hbusy.
  - now rewrite Z.add_0_r.
  - rewrite startServer_step.
    assert (Hport : is_busy (listen port) = true) by (apply Hbusy; lia).
    destruct (listen port) as [|code]; [discriminate|]. simpl in Hport.
    rewrite Hport. replace (Z.ltb port (initialPort + maxAttempts)) with true
      by (symmetry; apply Z.ltb_lt; lia).
    simpl.
    rewrite (startServer_on_outcome listen initialPort maxAttempts _ (port + 1) _ []
               eq_refl).
    rewrite IH.
    + f_equal. f_equal. lia.
    + lia.
    + intros j Hj. apply Hbusy. lia.
Qed.

(** C7. [startServer(initialPort, maxAttempts)] tries the ports
    [initialPort], [initialPort + 1], ... up to [initialPort + maxAttempts].
    If the ports before the [k]-th one fail with EADDRINUSE, then the
    server runs on port [initialPort + k] when that port is free, and the
    process exits with status 1 when that port fails with any other
    error; if every port of the range fails with EADDRINUSE the process
    exits with status 1. *)
Theorem startServer_port_fallback listen initialPort maxAttempts k :
  (0 ≤ k ≤ maxAttempts)%Z →
  (∀ j, (initialPort ≤ j < initialPort + k)%Z → is_busy (listen j) = true) →
  (listen (initialPort + k) = Listening →
     snd (startServer listen initialPort initialPort maxAttempts) =
       Running (initialPort + k)) ∧
  (∀ code, listen (initialPort + k) = ListenError code → is_EADDRINUSE code = false →
     ∃ status, snd (startServer listen initialPort initialPort maxAttempts) =
                 Exited status ∧ status ≠ 0) ∧
  (k = maxAttempts → is_busy (listen (initialPort + k)) = true →
     ∃ status, snd (startServer listen initialPort initialPort maxAttempts) =
                 Exited status ∧ status ≠ 0).
Proof.
  intros Hk Hbusy.
  assert (Hskip : snd (startServer listen initialPort initialPort maxAttempts) =
                  snd (startServer listen initialPort (initialPort + k) maxAttempts)).
  { rewrite (startServer_skips_busy listen initialPort maxAttempts (Z.to_nat k)).
    - now rewrite Z2Nat.id by lia.
    - rewrite Z2Nat.id by lia. lia.
    - intros j Hj. apply Hbusy. rewrite Z2Nat.id in Hj by lia. exact Hj. }
  rewrite Hskip. unfold startServer. rewrite startServer_step. repeat split.
  - intros ->. reflexivity.
  - intros code -> Hcode. rewrite Hcode. simpl. now exists 1.
  - intros -> Hlast. destruct (listen _) as [|code]; [discriminate|].
    simpl in Hlast. rewrite Hlast.
    replace (Z.ltb (initialPort + maxAttempts) (initialPort + maxAttempts)) with false
      by (symmetry; apply Z.ltb_irrefl).
    simpl. now exists 1.
Qed.

(** [createServerInstance] on a key that [sessionStates] holds. *)
Lemma createServerInstance_known ip w l :
  sessionStates w !! or_else ip "default" = Some l →
  createServerInstance ip w =
    Some ({| srv_clientIp := ip; srv_identifier := or_else ip "default";
             srv_state := l |}, w).
Proof.
  intros Hk. unfold createServerInstance, getSessionState. cbv zeta.
  unfold mbind, M_bind, gets. now rewrite Hk.
Qed.

(** [createServerInstance] on a key that [sessionStates] lacks. *)
Lemma createServerInstance_fresh ip w :
  sessionStates w !! or_else ip "default" = None →
  createServerInstance ip w =
    Some ({| srv_clientIp := ip; srv_identifier := or_else ip "default";
             srv_state := length (heap w) |},
          set_sessionStates (<[or_else ip "default" := length (heap w)]> (sessionStates w))
            (set_heap (heap w ++ [new_session]) w)).
Proof.
  intros Hk. unfold createServerInstance, getSessionState. cbv zeta.
  unfold mbind, M_bind, gets. now rewrite Hk.
Qed.

(** Either way the instance is bound to an allocated object that
    [sessionStates] holds under the key. *)
Lemma createServerInstance_run ip w :
  store_ok w →
  ∃ l wa s0,
    createServerInstance ip w =
      Some ({| srv_clientIp := ip; srv_identifier := or_else ip "default";
               srv_state := l |}, wa) ∧
    sessionStates wa !! or_else ip "default" = Some l ∧
    heap wa !! l = Some s0 ∧
    (sessionStates w !! or_else ip "default" = None → s0 = new_session).
Proof.
  intros Hok. destruct (sessionStates w !! or_else ip "default") as [l|] eqn:Hk.
  - destruct (Hok _ _ Hk) as [s0 Hs0].
    exists l, w, s0. rewrite (createServerInstance_known _ _ _ Hk).
    repeat split; try assumption. discriminate.
  - eexists _, _, new_session. rewrite (createServerInstance_fresh _ _ Hk).
    split; [reflexivity|]. simpl. split; [apply lookup_insert_eq|].
    split; [|reflexivity]. now rewrite lookup_app_r, Nat.sub_diag by lia.
Qed.



(** *** Further properties of the script *)

Lemma getSessionState_known k w l :
  sessionStates w !! k = Some l → getSessionState k w = Some (l, w).
Proof. intros Hk. unfold getSessionState. now rewrite gets_run, Hk. Qed.

Lemma getSessionState_fresh k w :
  sessionStates w !! k = None →
  getSessionState k w =
    Some (length (heap w),
          set_sessionStates (<[k := length (heap w)]> (sessionStates w))
            (set_heap (heap w ++ [new_session]) w)).
Proof. intros Hk. unfold getSessionState. now rewrite gets_run, Hk. Qed.

(** X1. [getSessionState] is get-or-create: it returns the address stored
    under the key, allocating a zeroed session at an unused address when
    the key is absent; asking again returns the same address and changes
    nothing; no other key and no existing object is touched, and the
    store stays well formed. *)
Theorem getSessionState_get_or_create k w :
  store_ok w →
  ∃ l w', getSessionState k w = Some (l, w') ∧
    sessionStates w' !! k = Some l ∧
    getSessionState k w' = Some (l, w') ∧
    (∀ k', k' ≠ k → sessionStates w' !! k' = sessionStates w !! k') ∧
    (∀ l' s, heap w !! l' = Some s → heap w' !! l' = Some s) ∧
    (∀ l', sessionStates w !! k = Some l' → l = l' ∧ w' = w) ∧
    (sessionStates w !! k = None →
       heap w !! l = None ∧ heap w' !! l = Some new_session) ∧
    store_ok w'.
Proof.
  intros Hok.
  destruct (sessionStates w !! k) as [l|] eqn:Hk.
  - exists l, w. rewrite (getSessionState_known _ _ _ Hk).
    repeat split; try congruence; auto.
  - eexists _, _. rewrite (getSessionState_fresh _ _ Hk).
    split; [reflexivity|].
    assert (Hk' : sessionStates
                    (set_sessionStates (<[k := length (heap w)]> (sessionStates w))
                       (set_heap (heap w ++ [new_session]) w)) !! k =
                  Some (length (heap w))) by apply lookup_insert_eq.
    split; [exact Hk'|].
    split; [exact (getSessionState_known _ _ _ Hk')|].
    cbn [sessionStates heap set_sessionStates set_heap].
    split; [intros k' Hne; now apply lookup_insert_ne|].
    split; [intros l' s Hl'; now apply lookup_app_l_Some|].
    split; [discriminate|].
    split.
    + intros _. split; [now apply lookup_ge_None|].
      now rewrite lookup_app_r, Nat.sub_diag by lia.
    + intros k2 l2 Hk2. cbn [sessionStates heap set_sessionStates set_heap] in *.
      destruct (decide (k = k2)) as [->|Hne].
      * rewrite lookup_insert_eq in Hk2. injection Hk2 as <-.
        rewrite lookup_app_r, Nat.sub_diag by lia. eauto.
      * rewrite lookup_insert_ne in Hk2 by exact Hne.
        destruct (Hok _ _ Hk2) as [s Hs]. exists s. now apply lookup_app_l_Some.
Qed.

(** What a tool call leaves alone: the heap changes at most at the
    session object of the instance, and the store, the timers and the
    clock do not change. *)
Lemma handleRequest_frame srv call w s :
  heap w !! srv_state srv = Some s →
  ∃ reply w' s', handleRequest srv call w = Some (reply, w') ∧
    heap w' = <[srv_state srv := s']> (heap w) ∧
    sessionStates w' = sessionStates w ∧
    intervals w' = intervals w ∧
    clock w' = clock w.
Proof.
  intros Hl. destruct call as [name|id tp tk]; cbn [handleRequest].
  - destruct (resolve_library_id_run srv name w s Hl)
      as (r & w' & Hrun & Hheap & _ & Hss & Hc & Hi & _).
    eexists _, w', _. rewrite (bind_run _ _ _ _ _ Hrun).
    split; [reflexivity|]. repeat split; eassumption.
  - destruct (tokens_schema tk) as [parsed|].
    2: { exists InvalidParams, w, s. split; [reflexivity|].
         rewrite list_insert_id by exact Hl. repeat split. }
    destruct (resolveLibraryIdCalled s || String.prefix "/" id) eqn:Hadm.
    + apply orb_true_iff in Hadm.
      destruct (get_library_docs_admitted srv id parsed tp w s Hl Hadm)
        as (r & w' & Hrun & Hheap & _ & Hss & Hc & Hi & _).
      eexists _, w', _. rewrite (bind_run _ _ _ _ _ Hrun).
      split; [reflexivity|]. repeat split; eassumption.
    + apply orb_false_iff in Hadm as [Hres Hpre].
      exists (ToolReply (text_result MUST_RESOLVE_FIRST)), w, s.
      rewrite (bind_run _ _ _ _ _ (get_library_docs_rejected _ _ _ _ _ _ Hl Hres Hpre)).
      split; [reflexivity|].
      rewrite list_insert_id by exact Hl. repeat split.
Qed.

(** X2. Sessions are isolated: a [resolve-library-id] call through one
    instance leaves the session object of an instance bound to another
    address as it was, so a [get-library-docs] call for a bare name
    through that other instance is still refused without a backend
    call. *)
Theorem resolve_does_not_open_other_sessions srvA srvB name id tk tp w sA sB :
  heap w !! srv_state srvA = Some sA →
  heap w !! srv_state srvB = Some sB →
  srv_state srvA ≠ srv_state srvB →
  resolveLibraryIdCalled sB = false →
  String.prefix "/" id = false →
  ∃ r w1, resolve_library_id srvA name w = Some (r, w1) ∧
    heap w1 !! srv_state srvB = Some sB ∧
    sessionStates w1 = sessionStates w ∧
    get_library_docs srvB id tk tp w1 = Some (text_result MUST_RESOLVE_FIRST, w1).
Proof.
  intros HA HB Hne Hres Hpre.
  destruct (resolve_library_id_run srvA name w sA HA)
    as (r & w1 & Hrun & Hheap & _ & Hss & _).
  assert (HB1 : heap w1 !! srv_state srvB = Some sB)
    by (rewrite Hheap, list_lookup_insert_ne; assumption).
  exists r, w1. split; [exact Hrun|]. split; [exact HB1|]. split; [exact Hss|].
  exact (get_library_docs_rejected _ _ _ _ _ _ HB1 Hres Hpre).
Qed.

(** X3. The exemption for an explicit id does not open the gate: in a
    session that has not resolved, a [get-library-docs] call with an id
    that begins with a slash reaches the backend and sets
    [getLibraryDocsCalled], but [resolveLibraryIdCalled] stays false and
    the next call for a bare name is refused. *)
Theorem explicit_id_does_not_open_gate srv id1 tk1 tp1 id2 tk2 tp2 w s :
  heap w !! srv_state srv = Some s →
  resolveLibraryIdCalled s = false →
  String.prefix "/" id1 = true →
  String.prefix "/" id2 = false →
  ∃ r1 w1, get_library_docs srv id1 tk1 tp1 w = Some (r1, w1) ∧
    length (backendCalls w1) = S (length (backendCalls w)) ∧
    heap w1 !! srv_state srv =
      Some {| resolveLibraryIdCalled := false; getLibraryDocsCalled := true;
              lastResolveLibraryIdTime := lastResolveLibraryIdTime s |} ∧
    get_library_docs srv id2 tk2 tp2 w1 = Some (text_result MUST_RESOLVE_FIRST, w1).
Proof.
  intros Hl Hres Hpre1 Hpre2.
  destruct (get_library_docs_admitted srv id1 tk1 tp1 w s Hl (or_intror Hpre1))
    as (r1 & w1 & Hrun & Hheap & Hcalls & _).
  assert (Hl1 : heap w1 !! srv_state srv =
                Some {| resolveLibraryIdCalled := false; getLibraryDocsCalled := true;
                        lastResolveLibraryIdTime := lastResolveLibraryIdTime s |}).
  { rewrite Hheap, (lookup_written _ _ s) by exact Hl.
    unfold set_getLibraryDocsCalled. now rewrite Hres. }
  exists r1, w1. split; [exact Hrun|]. split.
  { rewrite Hcalls, length_app. simpl. lia. }
  split; [exact Hl1|].
  exact (get_library_docs_rejected _ _ _ _ _ _ Hl1 eq_refl Hpre2).
Qed.

(** *** Strings *)

Lemma str_app_cons (x : ascii) (a b : string) :
  String x a ++ b = String x (a ++ b).
Proof. reflexivity. Qed.

Lemma str_app_nil_l (b : string) : "" ++ b = b.
Proof. reflexivity. Qed.

Lemma str_app_assoc (a b c : string) : (a ++ b) ++ c = a ++ (b ++ c).
Proof.
  induction a as [|x a IH]; [reflexivity|].
  now rewrite !str_app_cons, IH.
Qed.

Lemma str_length_app (a b : string) :
  String.length (a ++ b) = (String.length a + String.length b)%nat.
Proof.
  induction a as [|x a IH]; [reflexivity|].
  rewrite str_app_cons. simpl. now rewrite IH.
Qed.

Lemma prefix_app (p s : string) :
  String.prefix p s = true ↔ ∃ r, s = p ++ r.
Proof.
  revert s. induction p as [|x p IH]; intros s.
  - split; [intros _; now exists s|intros _; now destruct s].
  - destruct s as [|y s]; [split; [discriminate|intros [r [=]]]|].
    cbn [String.prefix]. destruct (ascii_dec x y) as [->|Hne].
    + rewrite IH. split; intros [r Hr]; exists r.
      * rewrite str_app_cons. congruence.
      * rewrite str_app_cons in Hr. congruence.
    + split; [discriminate|]. intros [r Hr].
      rewrite str_app_cons in Hr. congruence.
Qed.

(** [occurs p s] holds exactly when [p] is a factor of [s]. *)
Lemma occurs_app (p s : string) :
  occurs p s = true ↔ ∃ a b, s = a ++ p ++ b.
Proof.
  induction s as [|y s IH]; cbn [occurs].
  - rewrite orb_false_r, prefix_app. split.
    + intros [r Hr]. now exists "", r.
    + intros (a & b & Hab). destruct a; [now exists b|discriminate].
  - rewrite orb_true_iff, prefix_app, IH. split.
    + intros [[r Hr]|(a & b & Hab)].
      * now exists "", r.
      * exists (String y a), b. rewrite str_app_cons. now rewrite Hab.
    + intros (a & b & Hab). destruct a as [|x a].
      * left. now exists b.
      * right. exists a, b. rewrite str_app_cons in Hab. congruence.
Qed.

Lemma occurs_suffix_of_pattern (x p s : string) :
  occurs (x ++ p) s = true → occurs p s = true.
Proof.
  rewrite !occurs_app. intros (a & b & ->).
  exists (a ++ x), b. now rewrite !str_app_assoc.
Qed.

Lemma occurs_in_context (p s u v : string) :
  occurs p s = true → occurs p (u ++ s ++ v) = true.
Proof.
  rewrite !occurs_app. intros (a & b & ->).
  exists (u ++ a), (b ++ v). now rewrite !str_app_assoc.
Qed.

Lemma lower_app (a b : string) : lower (a ++ b) = lower a ++ lower b.
Proof.
  induction a as [|x a IH]; [reflexivity|].
  rewrite str_app_cons. cbn [lower]. now rewrite IH.
Qed.

Lemma lower_upper (s : string) : lower (upper s) = lower s.
Proof.
  induction s as [|c s IH]; simpl; [reflexivity|]. rewrite IH. f_equal.
  destruct c as [[] [] [] [] [] [] [] []]; reflexivity.
Qed.

Lemma existsb_mono {A} (f g : A → bool) (l : list A) :
  (∀ x, f x = true → g x = true) → existsb f l = true → existsb g l = true.
Proof.
  intros Hfg. rewrite !existsb_exists. intros (x & Hin & Hx). eauto.
Qed.

(** X4. [containsErrorMessage] ignores the case of the letters, stays
    true when the query is embedded in a longer text, and is decided by
    seven of its twelve patterns: every query matched by one of the five
    patterns that end in [error] is already matched by the pattern
    [error]. *)
Theorem containsErrorMessage_patterns q :
  containsErrorMessage (upper q) = containsErrorMessage q ∧
  (∀ u v, containsErrorMessage q = true → containsErrorMessage (u ++ q ++ v) = true) ∧
  containsErrorMessage q =
    existsb (λ pattern, occurs pattern (lower q))
      ["error"; "exception"; "traceback"; "failed"; "cannot import";
       "module not found"; "no module named"].
Proof.
  split; [|split].
  - unfold containsErrorMessage. now rewrite lower_upper.
  - intros u v. unfold containsErrorMessage. rewrite !lower_app.
    apply existsb_mono. intros p. apply occurs_in_context.
  - unfold containsErrorMessage, errorPatterns. cbn [existsb].
    destruct (occurs "error" (lower q)) eqn:Herr; [reflexivity|].
    assert (Hsub : ∀ p x, p = x ++ "error" → occurs p (lower q) = false).
    { intros p x ->. destruct (occurs (x ++ "error") (lower q)) eqn:Hx; [|reflexivity].
      apply occurs_suffix_of_pattern in Hx. congruence. }
    rewrite (Hsub "import error" "import " eq_refl),
            (Hsub "syntax error" "syntax " eq_refl),
            (Hsub "runtime error" "runtime " eq_refl),
            (Hsub "attribute error" "attribute " eq_refl),
            (Hsub "type error" "type " eq_refl).
    now rewrite !orb_false_r.
Qed.

Lemma substring_0_length n (s : string) :
  (String.length (substring 0 n s) ≤ n)%nat ∧
  ((String.length s ≤ n)%nat → substring 0 n s = s) ∧
  ∃ rest, s = substring 0 n s ++ rest.
Proof.
  revert s. induction n as [|n IH]; intros s.
  - destruct s as [|c s]; cbn [substring String.length].
    + repeat split; try lia. now exists "".
    + split; [lia|]. split; [lia|]. now exists (String c s).
  - destruct s as [|c s]; cbn [substring String.length].
    + repeat split; try lia. now exists "".
    + destruct (IH s) as (Hlen & Hshort & rest & Hrest).
      split; [lia|]. split.
      * intros Hs. rewrite Hshort by lia. reflexivity.
      * exists rest. rewrite str_app_cons. now rewrite <- Hrest.
Qed.

Lemma substring_0_min n (s : string) :
  String.length (substring 0 n s) = Nat.min n (String.length s).
Proof.
  revert s. induction n as [|n IH]; intros [|c s]; cbn [substring String.length];
    try reflexivity.
  now rewrite IH.
Qed.

(** What [mask_ip] keeps of an address. *)
Lemma mask_ip_spec (a : string) :
  (mask_ip (Some a) = None ↔ a = "") ∧
  (a ≠ "" → mask_ip (Some a) = Some (substring 0 8 a ++ "...")).
Proof.
  unfold mask_ip. split.
  - destruct (String.eqb_spec a ""); split; congruence.
  - intros Ha. apply String.eqb_neq in Ha. now rewrite Ha.
Qed.

(** The entry that [logToolCall] appends is the last one of the
    history. *)
Lemma logToolCall_last t q lib ip ok w :
  ∃ w', logToolCall t q lib ip ok w = Some (tt, w') ∧
    last (callHistory w') = Some (logEntry (clock w) t q lib ip ok).
Proof.
  destruct (logToolCall_run t q lib ip ok w) as (w' & Hrun & _ & _ & _ & _ & _ & _ & _ & Hh).
  exists w'. split; [exact Hrun|]. rewrite Hh. unfold slice_last_100.
  rewrite drop_app_le by (rewrite length_app; simpl; lia).
  apply last_snoc.
Qed.

(** X5. The address that [logToolCall] stores.  The entry a call appends
    to the history holds no address when the caller gave none or an empty
    one; otherwise it holds the first eight characters of the address (the
    whole address when it has at most eight) followed by three dots, at
    most eleven characters in all.  So two calls that differ only in
    their addresses store the same text when the addresses agree on the
    first eight characters. *)
Theorem logged_address_keeps_eight_characters t q lib ip ok w :
  ∃ w' e,
    logToolCall t q lib ip ok w = Some (tt, w') ∧
    last (callHistory w') = Some e ∧
    (clientIp e = None ↔ ip = None ∨ ip = Some "") ∧
    (∀ a, ip = Some a → a ≠ "" →
       ∃ p rest, a = p ++ rest ∧
         String.length p = Nat.min 8 (String.length a) ∧
         clientIp e = Some (p ++ "...") ∧
         (String.length (p ++ "...") ≤ 11)%nat ∧
         ((String.length a ≤ 8)%nat → p = a)) ∧
    (∀ a b, ip = Some a → a ≠ "" → b ≠ "" → substring 0 8 a = substring 0 8 b →
       ∃ w2 e2,
         logToolCall t q lib (Some b) ok w = Some (tt, w2) ∧
         last (callHistory w2) = Some e2 ∧
         clientIp e2 = clientIp e).
Proof.
  destruct (logToolCall_last t q lib ip ok w) as (w' & Hrun & Hlast).
  exists w', (logEntry (clock w) t q lib ip ok).
  split; [exact Hrun|]. split; [exact Hlast|]. cbn [clientIp logEntry].
  split; [|split].
  - destruct ip as [a|].
    + rewrite (proj1 (mask_ip_spec a)). split; [intros ->; now right|].
      intros [Hn|[= ->]]; [discriminate|reflexivity].
    + split; [now left|reflexivity].
  - intros a -> Ha.
    destruct (substring_0_length 8 a) as (Hlen & Hshort & rest & Hrest).
    exists (substring 0 8 a), rest. split; [exact Hrest|].
    split; [apply substring_0_min|].
    split; [exact (proj2 (mask_ip_spec a) Ha)|].
    split; [rewrite str_length_app; simpl; lia|exact Hshort].
  - intros a b -> Ha Hb Hab.
    destruct (logToolCall_last t q lib (Some b) ok w) as (w2 & Hrun2 & Hlast2).
    exists w2, (logEntry (clock w) t q lib (Some b) ok).
    split; [exact Hrun2|]. split; [exact Hlast2|]. cbn [clientIp logEntry].
    now rewrite (proj2 (mask_ip_spec a) Ha), (proj2 (mask_ip_spec b) Hb), Hab.
Qed.

Lemma before_comma_split (h : string) :
  occurs "," (before_comma h) = false ∧
  (before_comma h = h ∨ ∃ rest, h = before_comma h ++ "," ++ rest).
Proof.
  induction h as [|c h [IHno IHsplit]]; simpl.
  - split; [reflexivity|now left].
  - destruct (Ascii.eqb_spec c ",") as [->|Hne].
    + split; [reflexivity|]. right. now exists h.
    + split.
      * cbn [occurs String.prefix]. rewrite IHno.
        destruct (ascii_dec "," c) as [Heq|_]; [congruence|reflexivity].
      * destruct IHsplit as [->|[rest Hrest]]; [now left|].
        right. exists rest. rewrite str_app_cons. now rewrite <- Hrest.
Qed.

(** X6. The client key: a non-empty forwarded-address header wins over
    the socket address and contributes the trimmed text before its first
    comma, which contains no comma; a header array contributes its first
    element in the same way and throws when it is empty; without a
    header, or with an empty one, the socket address is used, an empty
    socket address counting as none. *)
Theorem getClientIp_derivation :
  (∀ h addr, h ≠ "" →
     getClientIp {| x_forwarded_for := Some (HString h); remoteAddress := addr |} =
       inr (Some (trim (before_comma h)))) ∧
  (∀ h more addr,
     getClientIp {| x_forwarded_for := Some (HArray (h :: more)); remoteAddress := addr |} =
       inr (Some (trim (before_comma h)))) ∧
  (∀ addr,
     getClientIp {| x_forwarded_for := Some (HArray []); remoteAddress := addr |} =
       inl TypeErrorThrown) ∧
  (∀ hdr a, hdr = None ∨ hdr = Some (HString "") →
     getClientIp {| x_forwarded_for := hdr; remoteAddress := Some a |} =
       inr (if String.eqb a "" then None else Some a) ∧
     getClientIp {| x_forwarded_for := hdr; remoteAddress := None |} = inr None) ∧
  (∀ h, occurs "," (before_comma h) = false ∧
        (before_comma h = h ∨ ∃ rest, h = before_comma h ++ "," ++ rest)).
Proof.
  split; [|split; [|split; [|split]]].
  - intros h addr Hh. unfold getClientIp. cbn [x_forwarded_for].
    apply String.eqb_neq in Hh. now rewrite Hh.
  - reflexivity.
  - reflexivity.
  - intros hdr a [->| ->]; split; reflexivity.
  - exact before_comma_split.
Qed.

Lemma is_nan_key v : PrimFloat.is_nan v = sf_is_nan (Prim2SF v).
Proof.
  unfold PrimFloat.is_nan. rewrite FloatAxioms.eqb_spec. unfold SFeqb.
  rewrite SFcompare_key, orb_diag.
  destruct (sf_is_nan (Prim2SF v)); [reflexivity|].
  pose proof (lex3_spec (sf_key (Prim2SF v)) (sf_key (Prim2SF v))) as Hs.
  destruct (lex3 _ _); [reflexivity|lia..].
Qed.

Lemma transform_tokens_at_least_floor v :
  PrimFloat.is_nan v = false →
  PrimFloat.leb DEFAULT_MINIMUM_TOKENS (transform_tokens v) = true.
Proof.
  intros Hnan. unfold transform_tokens.
  destruct (PrimFloat.ltb v DEFAULT_MINIMUM_TOKENS) eqn:Hlt; [reflexivity|].
  apply not_ltb_leb; [exact Hlt| |reflexivity].
  rewrite leb_key, orb_diag, <- is_nan_key, Hnan. simpl.
  pose proof (lex3_spec (sf_key (Prim2SF v)) (sf_key (Prim2SF v))) as Hs.
  destruct (lex3 _ _); [reflexivity|reflexivity|lia].
Qed.

(** X7. Through the argument schema the backend never sees a token count
    below the floor: a [get-library-docs] request whose [tokens] is NaN
    is refused before the handler runs and changes nothing; any other
    request either makes no backend call or makes one fetch whose
    [tokens] is at least [DEFAULT_MINIMUM_TOKENS], the floor itself when
    [tokens] was left out and the clamped value otherwise. *)
Theorem backend_tokens_at_least_floor srv id tp tk w s :
  heap w !! srv_state srv = Some s →
  match tokens_schema tk with
  | None =>
      (∃ v, tk = Some v ∧ PrimFloat.is_nan v = true) ∧
      handleRequest srv (CallDocs id tp tk) w = Some (InvalidParams, w)
  | Some _ =>
      ∃ r w', handleRequest srv (CallDocs id tp tk) w = Some (ToolReply r, w') ∧
        (backendCalls w' = backendCalls w ∨
         ∃ t, backendCalls w' =
                (backendCalls w ++
                   [FetchCall id {| tokens := t; topic := default "" tp |}
                      (srv_clientIp srv)])%list ∧
              PrimFloat.leb DEFAULT_MINIMUM_TOKENS t = true ∧
              (tk = None → t = DEFAULT_MINIMUM_TOKENS) ∧
              (∀ v, tk = Some v → t = transform_tokens v))
  end.
Proof.
  intros Hl. cbn [handleRequest].
  destruct tk as [v|]; cbn [tokens_schema].
  - destruct (PrimFloat.is_nan v) eqn:Hnan.
    + split; [now exists v|reflexivity].
    + destruct (resolveLibraryIdCalled s || String.prefix "/" id) eqn:Hadm.
      * apply orb_true_iff in Hadm.
        destruct (get_library_docs_admitted srv id (Some (transform_tokens v)) tp w s
                    Hl Hadm) as (r & w' & Hrun & _ & Hcalls & _).
        exists r, w'. rewrite (bind_run _ _ _ _ _ Hrun). split; [reflexivity|].
        right. exists (transform_tokens v). split; [exact Hcalls|].
        split; [now apply transform_tokens_at_least_floor|].
        split; [discriminate|]. now intros ? [= <-].
      * apply orb_false_iff in Hadm as [Hres Hpre].
        eexists _, w.
        rewrite (bind_run _ _ _ _ _ (get_library_docs_rejected _ _ _ _ _ _ Hl Hres Hpre)).
        split; [reflexivity|now left].
  - destruct (resolveLibraryIdCalled s || String.prefix "/" id) eqn:Hadm.
    + apply orb_true_iff in Hadm.
      destruct (get_library_docs_admitted srv id None tp w s Hl Hadm)
        as (r & w' & Hrun & _ & Hcalls & _).
      exists r, w'. rewrite (bind_run _ _ _ _ _ Hrun). split; [reflexivity|].
      right. exists DEFAULT_MINIMUM_TOKENS. split; [exact Hcalls|].
      split; [reflexivity|]. split; [reflexivity|discriminate].
    + apply orb_false_iff in Hadm as [Hres Hpre].
      eexists _, w.
      rewrite (bind_run _ _ _ _ _ (get_library_docs_rejected _ _ _ _ _ _ Hl Hres Hpre)).
      split; [reflexivity|now left].
Qed.

(** X8. The timer leaves the world as it is when it was cleared or never
    set, and when its session is not overdue: step 1 not done, or step 2
    done, or at most the timeout elapsed since the last resolve (exactly
    the timeout included). *)
Theorem watchdog_spares_sessions_in_time i w :
  (intervals w !! i = None ∨ intervals w !! i = Some None → fire i w = Some (tt, w)) ∧
  (∀ iv s,
     intervals w !! i = Some (Some iv) →
     heap w !! srv_state (iv_server iv) = Some s →
     resolveLibraryIdCalled s = false ∨ getLibraryDocsCalled s = true ∨
     (clock w - default 0 (lastResolveLibraryIdTime s) ≤ RESOLVE_TIMEOUT)%Z →
     fire i w = Some (tt, w)).
Proof.
  split.
  - intros [Hi|Hi]; unfold fire; now rewrite gets_run, Hi.
  - intros iv s Hi Hl Hfresh. unfold fire. rewrite gets_run, Hi.
    rewrite (checkInterval_run _ _ _ Hl).
    destruct Hfresh as [-> | [-> | Hle]].
    + reflexivity.
    + now rewrite andb_false_r.
    + apply Z.ltb_ge in Hle. rewrite Hle. now rewrite andb_false_r.
Qed.

(** X9. A resolve that is not followed up expires: after
    [resolve-library-id], when the timer of the instance fires more than
    the timeout later, it writes the warning and the next
    [get-library-docs] call for a bare name is refused; when it fires
    within the timeout it changes nothing and that call reaches the
    backend. *)
Theorem stale_resolve_must_be_repeated srv i period name id tk tp w s now :
  heap w !! srv_state srv = Some s →
  intervals w !! i = Some (Some {| iv_period := period; iv_server := srv |}) →
  String.prefix "/" id = false →
  ∃ r w1, resolve_library_id srv name w = Some (r, w1) ∧
    ((RESOLVE_TIMEOUT < now - clock w)%Z →
       ∃ w2, fire i (set_clock now w1) = Some (tt, w2) ∧
         console w2 = (console w1 ++ [WatchdogWarning (srv_identifier srv)])%list ∧
         get_library_docs srv id tk tp w2 = Some (text_result MUST_RESOLVE_FIRST, w2)) ∧
    ((now - clock w ≤ RESOLVE_TIMEOUT)%Z →
       fire i (set_clock now w1) = Some (tt, set_clock now w1) ∧
       ∃ r' w3, get_library_docs srv id tk tp (set_clock now w1) = Some (r', w3) ∧
         length (backendCalls w3) = S (length (backendCalls w1))).
Proof.
  intros Hl Hi Hpre.
  destruct (resolve_library_id_run srv name w s Hl)
    as (r & w1 & Hrun & Hheap & _ & _ & _ & Hint & _).
  exists r, w1. split; [exact Hrun|].
  assert (Hl1 : heap (set_clock now w1) !! srv_state srv =
                Some {| resolveLibraryIdCalled := true; getLibraryDocsCalled := false;
                        lastResolveLibraryIdTime := Some (clock w) |})
    by (cbn [heap set_clock]; rewrite Hheap; eapply lookup_written, Hl).
  assert (Hfire : fire i (set_clock now w1) = checkInterval srv (set_clock now w1)).
  { unfold fire. rewrite gets_run. cbn [intervals set_clock]. now rewrite Hint, Hi. }
  rewrite Hfire, (checkInterval_run _ _ _ Hl1).
  cbn [resolveLibraryIdCalled getLibraryDocsCalled lastResolveLibraryIdTime
       clock set_clock default from_option Datatypes.id negb andb].
  split.
  - intros Hold. apply Z.ltb_lt in Hold. rewrite Hold.
    eexists. split; [reflexivity|]. split; [reflexivity|].
    apply (get_library_docs_rejected _ _ _ _ _
             {| resolveLibraryIdCalled := false; getLibraryDocsCalled := false;
                lastResolveLibraryIdTime := Some (clock w) |});
      [|reflexivity|exact Hpre].
    cbn [heap set_heap set_console set_clock].
    apply (lookup_written _ _ _ _ Hl1).
  - intros Hin. apply Z.ltb_ge in Hin. rewrite Hin. split; [reflexivity|].
    destruct (get_library_docs_admitted srv id tk tp (set_clock now w1) _ Hl1
                (or_introl eq_refl)) as (r' & w3 & Hrun3 & _ & Hcalls & _).
    exists r', w3. split; [exact Hrun3|].
    rewrite Hcalls, length_app. simpl. lia.
Qed.

(** X10. [transport.onclose] clears its timer, removes the key from
    [sessionStates] and nothing else: the session objects, the other keys
    and the other timers stay; afterwards the cleared timer never acts
    again, and running the callback a second time changes nothing. *)
Theorem onclose_disarms_and_forgets t w :
  ∃ w', onclose t w = Some (tt, w') ∧
    sessionStates w' = delete (tr_sessionIdentifier t) (sessionStates w) ∧
    heap w' = heap w ∧
    (∀ j, j ≠ tr_checkInterval t → intervals w' !! j = intervals w !! j) ∧
    (∀ now, fire (tr_checkInterval t) (set_clock now w') = Some (tt, set_clock now w')) ∧
    onclose t w' = Some (tt, w').
Proof.
  eexists. split; [reflexivity|].
  cbn [sessionStates heap intervals set_sessionStates set_intervals].
  split; [reflexivity|]. split; [reflexivity|].
  split; [intros j Hj; now apply list_lookup_insert_ne|].
  split.
  - intros now. unfold fire. rewrite gets_run.
    cbn [intervals set_clock set_sessionStates set_intervals].
    destruct (decide (tr_checkInterval t < length (intervals w))%nat) as [Hlt|Hge].
    + now rewrite list_lookup_insert_eq by exact Hlt.
    + rewrite list_insert_ge by lia.
      now rewrite (proj2 (lookup_ge_None _ _)) by lia.
  - unfold onclose. rewrite !modify_run. unfold modify.
    unfold set_sessionStates, set_intervals.
    cbn [clock heap sessionStates totalCallCount toolCallStats callHistory
         intervals backendCalls console].
    now rewrite list_insert_insert_eq, delete_delete_eq.
Qed.

(** X11. Closing one transport splits the instances of a client: an
    instance created before the close keeps its session object, an
    instance created after it gets a new one under the same key; a
    resolve through the old instance then opens the gate for the old
    instance only. *)
Theorem close_splits_instances_of_a_key ip t name id tk tp w :
  store_ok w →
  tr_sessionIdentifier t = or_else ip "default" →
  String.prefix "/" id = false →
  ∃ srv1 w1 w2 srv2 w3 r w4,
    createServerInstance ip w = Some (srv1, w1) ∧
    onclose t w1 = Some (tt, w2) ∧
    createServerInstance ip w2 = Some (srv2, w3) ∧
    srv_identifier srv1 = srv_identifier srv2 ∧
    srv_state srv1 ≠ srv_state srv2 ∧
    resolve_library_id srv1 name w3 = Some (r, w4) ∧
    get_library_docs srv2 id tk tp w4 = Some (text_result MUST_RESOLVE_FIRST, w4) ∧
    ∃ r' w5, get_library_docs srv1 id tk tp w4 = Some (r', w5) ∧
      length (backendCalls w5) = S (length (backendCalls w4)).
Proof.
  intros Hok Ht Hpre.
  destruct (createServerInstance_run ip w Hok)
    as (l & w1 & s0 & Hcreate & Hkey & Hl & _).
  assert (∃ w2, onclose t w1 = Some (tt, w2) ∧ heap w2 = heap w1 ∧
                sessionStates w2 !! or_else ip "default" = None)
    as (w2 & Hclose & Hheap2 & Hgone).
  { eexists. split; [reflexivity|]. split; [reflexivity|].
    cbn [sessionStates set_sessionStates]. rewrite Ht. apply lookup_delete_eq. }
  pose proof (createServerInstance_fresh ip w2 Hgone) as Hcreate2.
  set (srv1 := {| srv_clientIp := ip; srv_identifier := or_else ip "default";
                  srv_state := l |}) in *.
  set (srv2 := {| srv_clientIp := ip; srv_identifier := or_else ip "default";
                  srv_state := length (heap w2) |}) in *.
  set (w3 := set_sessionStates _ _) in Hcreate2.
  assert (Hlt : (l < length (heap w1))%nat) by (eapply lookup_lt_Some, Hl).
  assert (Hl3 : heap w3 !! srv_state srv1 = Some s0).
  { subst w3. cbn [heap set_sessionStates set_heap srv_state srv1].
    rewrite Hheap2. now apply lookup_app_l_Some. }
  assert (Hn3 : heap w3 !! srv_state srv2 = Some new_session).
  { subst w3. cbn [heap set_sessionStates set_heap srv_state srv2].
    now rewrite lookup_app_r, Nat.sub_diag by lia. }
  assert (Hne : srv_state srv1 ≠ srv_state srv2).
  { cbn [srv_state srv1 srv2]. rewrite Hheap2. lia. }
  destruct (resolve_library_id_run srv1 name w3 s0 Hl3)
    as (r & w4 & Hrun & Hheap4 & _).
  assert (Hn4 : heap w4 !! srv_state srv2 = Some new_session)
    by (rewrite Hheap4, list_lookup_insert_ne; assumption).
  assert (Hl4 : heap w4 !! srv_state srv1 =
                Some {| resolveLibraryIdCalled := true; getLibraryDocsCalled := false;
                        lastResolveLibraryIdTime := Some (clock w3) |})
    by (rewrite Hheap4; eapply lookup_written, Hl3).
  destruct (get_library_docs_admitted srv1 id tk tp w4 _ Hl4 (or_introl eq_refl))
    as (r' & w5 & Hrun5 & _ & Hcalls & _).
  exists srv1, w1, w2, srv2, w3, r, w4.
  split; [exact Hcreate|]. split; [exact Hclose|]. split; [exact Hcreate2|].
  split; [reflexivity|]. split; [exact Hne|]. split; [exact Hrun|].
  split; [exact (get_library_docs_rejected _ _ _ _ _ _ Hn4 eq_refl Hpre)|].
  exists r', w5. split; [exact Hrun5|].
  rewrite Hcalls, length_app. simpl. lia.
Qed.

Lemma ports_from_S a n : ports_from a (S n) = a :: ports_from (a + 1) n.
Proof.
  unfold ports_from. cbn [seq map]. rewrite Z.add_0_r. f_equal.
  rewrite <- seq_shift, map_map. apply map_ext. intros k. lia.
Qed.

(** The run of [startServer] from any port: the busy ports it passes,
    the port it ends on, its log and its outcome. *)
Lemma startServer_from listen initialPort maxAttempts (k : nat) : ∀ port listening,
  (initialPort + maxAttempts - port ≤ Z.of_nat k)%Z →
  ∃ n : nat,
    (∀ j, (port ≤ j < port + Z.of_nat n)%Z →
          is_busy (listen j) = true ∧ (j < initialPort + maxAttempts)%Z) ∧
    ((listen (port + Z.of_nat n) = Listening ∧
      startServer_on listen initialPort listening port maxAttempts =
        ((map (λ j, PortInUse j (j + 1)) (ports_from port n) ++
            map RunningOn (listening ++ ports_from port (S n)))%list,
         Running (port + Z.of_nat n))) ∨
     (listen (port + Z.of_nat n) ≠ Listening ∧
      (is_busy (listen (port + Z.of_nat n)) = true →
         (initialPort + maxAttempts ≤ port + Z.of_nat n)%Z) ∧
      startServer_on listen initialPort listening port maxAttempts =
        ((map (λ j, PortInUse j (j + 1)) (ports_from port n) ++ [FailedToStart])%list,
         Exited 1))).
Proof.
  induction k as [|k IH]; intros port listening Hk.
  - exists 0%nat. rewrite Z.add_0_r. split; [intros j Hj; lia|].
    rewrite startServer_step. destruct (listen port) as [|code] eqn:Hlisten.
    + left. split; [reflexivity|]. rewrite ports_from_S. reflexivity.
    + right. split; [discriminate|]. split; [intros _; lia|].
      replace (Z.ltb port (initialPort + maxAttempts)) with false
        by (symmetry; apply Z.ltb_ge; lia).
      now rewrite andb_false_r.
  - rewrite startServer_step. destruct (listen port) as [|code] eqn:Hlisten.
    + exists 0%nat. rewrite Z.add_0_r, Hlisten. split; [intros j Hj; lia|].
      left. split; [reflexivity|]. rewrite ports_from_S. reflexivity.
    + destruct (is_EADDRINUSE code && Z.ltb port (initialPort + maxAttempts)) eqn:Hretry.
      * apply andb_true_iff in Hretry as [Hcode Hlt]. apply Z.ltb_lt in Hlt.
        destruct (IH (port + 1)%Z (listening ++ [port])%list) as (n & Hbusy & Hend); [lia|].
        exists (S n). rewrite (ports_from_S port (S n)), (ports_from_S port n).
        replace (port + Z.of_nat (S n))%Z with (port + 1 + Z.of_nat n)%Z by lia.
        split.
        { intros j Hj. destruct (decide (j = port)) as [->|Hne].
          - rewrite Hlisten. split; [exact Hcode|exact Hlt].
          - apply Hbusy. lia. }
        destruct Hend as [(Hfree & ->)|(Hfail & Hlast & ->)]; [left|right].
        -- split; [exact Hfree|]. cbn [fst snd map app]. now rewrite <- app_assoc.
        -- repeat split; assumption.
      * exists 0%nat. rewrite Z.add_0_r, Hlisten. split; [intros j Hj; lia|].
        right. split; [discriminate|]. split; [|reflexivity].
        cbn [is_busy]. intros Hcode. rewrite Hcode in Hretry.
        apply Z.ltb_ge in Hretry. lia.
Qed.

(** X12. What [startServer] does in every case: it passes [n] ports that
    are in use, with [n] at most [maxAttempts], warning once for each in
    increasing order, and ends on the next port.  When that port is free
    the server runs on it, and the log ends with [n + 1] running lines,
    one for each port tried, in increasing order: the callbacks of the
    failed [listen] calls are still registered and each prints its own
    port, so that only the last line names the port the server runs on.
    When the port fails the log ends with the failure line and the
    process exits with status 1, and if that failure is again an address
    in use then all [maxAttempts] retries were spent. *)
Theorem startServer_outcome_and_log listen initialPort maxAttempts :
  ∃ n : nat,
    (Z.of_nat n ≤ Z.max 0 maxAttempts)%Z ∧
    (∀ j, (initialPort ≤ j < initialPort + Z.of_nat n)%Z → is_busy (listen j) = true) ∧
    ((listen (initialPort + Z.of_nat n) = Listening ∧
      startServer listen initialPort initialPort maxAttempts =
        ((map (λ j, PortInUse j (j + 1)) (ports_from initialPort n) ++
            map RunningOn (ports_from initialPort (S n)))%list,
         Running (initialPort + Z.of_nat n)) ∧
      last (fst (startServer listen initialPort initialPort maxAttempts)) =
        Some (RunningOn (initialPort + Z.of_nat n))) ∨
     (listen (initialPort + Z.of_nat n) ≠ Listening ∧
      (is_busy (listen (initialPort + Z.of_nat n)) = true →
         Z.of_nat n = Z.max 0 maxAttempts) ∧
      startServer listen initialPort initialPort maxAttempts =
        ((map (λ j, PortInUse j (j + 1)) (ports_from initialPort n) ++ [FailedToStart])%list,
         Exited 1))).
Proof.
  unfold startServer.
  destruct (startServer_from listen initialPort maxAttempts
              (Z.to_nat maxAttempts) initialPort []) as (n & Hbusy & Hend); [lia|].
  assert (Hn : (Z.of_nat n ≤ Z.max 0 maxAttempts)%Z).
  { destruct n as [|n]; [lia|].
    destruct (Hbusy (initialPort + Z.of_nat n)%Z) as [_ Hlt]; lia. }
  exists n. split; [exact Hn|]. split; [intros j Hj; now apply Hbusy|].
  destruct Hend as [(Hfree & Hrun)|(Hfail & Hlast & Hrun)]; [left|right].
  - split; [exact Hfree|]. rewrite Hrun. split; [reflexivity|].
    cbn [fst app].
    replace (ports_from initialPort (S n))
      with (ports_from initialPort n ++ [initialPort + Z.of_nat n])%list
      by (unfold ports_from; rewrite seq_S, map_app; reflexivity).
    rewrite map_app, app_assoc. cbn [map]. apply last_snoc.
  - split; [exact Hfail|]. split; [|exact Hrun].
    intros Hb. specialize (Hlast Hb). lia.
Qed.

(** *** Invariants *)

Lemma masked_logEntry now t q lib ip ok : masked (logEntry now t q lib ip ok).
Proof.
  unfold masked, logEntry, mask_ip. cbn [clientIp].
  destruct ip as [a|]; [|now left].
  destruct (String.eqb a ""); [now left|]. right.
  exists (substring 0 8 a). split; [reflexivity|].
  apply (substring_0_length 8 a).
Qed.

Lemma telemetry_ok_same w w' :
  totalCallCount w' = totalCallCount w →
  toolCallStats w' = toolCallStats w →
  callHistory w' = callHistory w →
  telemetry_ok w → telemetry_ok w'.
Proof. unfold telemetry_ok. now intros -> -> ->. Qed.

Lemma telemetry_ok_log1 w w' t e :
  telemetry_ok w → masked e →
  totalCallCount w' = (totalCallCount w + 1)%Z →
  toolCallStats w' = bump t (toolCallStats w) →
  callHistory w' = slice_last_100 (callHistory w ++ [e]) →
  telemetry_ok w'.
Proof.
  unfold telemetry_ok. intros (Hsum & Hlen & Hmask) He -> -> ->.
  split; [destruct t; simpl; lia|]. split.
  - unfold slice_last_100. rewrite length_drop, length_app. simpl. lia.
  - unfold slice_last_100. apply Forall_drop, Forall_app. split; [exact Hmask|].
    now constructor.
Qed.

Lemma telemetry_ok_log2 w w' t e1 e2 :
  telemetry_ok w → masked e1 → masked e2 →
  totalCallCount w' = (totalCallCount w + 2)%Z →
  toolCallStats w' = bump t (bump t (toolCallStats w)) →
  callHistory w' = slice_last_100 (callHistory w ++ [e1; e2]) →
  telemetry_ok w'.
Proof.
  unfold telemetry_ok. intros (Hsum & Hlen & Hmask) He1 He2 -> -> ->.
  split; [destruct t; simpl; lia|]. split.
  - unfold slice_last_100. rewrite length_drop, length_app. simpl. lia.
  - unfold slice_last_100. apply Forall_drop, Forall_app. split; [exact Hmask|].
    constructor; [exact He1|]. constructor; [exact He2|constructor].
Qed.

(** A tool call keeps the telemetry invariant. *)
Lemma handleRequest_telemetry srv call w s reply w' :
  heap w !! srv_state srv = Some s →
  handleRequest srv call w = Some (reply, w') →
  telemetry_ok w → telemetry_ok w'.
Proof.
  intros Hl Hrun Hok. destruct call as [name|id tp tk]; cbn [handleRequest] in Hrun.
  - destruct (resolve_library_id_run srv name w s Hl)
      as (r & w1 & Hrun1 & _ & _ & _ & _ & _ & Hfound & Hnone).
    rewrite (bind_run _ _ _ _ _ Hrun1) in Hrun. injection Hrun as _ <-.
    destruct (no_results (searchLibraries name (srv_clientIp srv))).
    + destruct (Hnone eq_refl) as (_ & Ht & Hst & Hh).
      eapply telemetry_ok_log2; eauto using masked_logEntry.
    + destruct (Hfound eq_refl) as (_ & Ht & Hst & Hh).
      eapply telemetry_ok_log1; eauto using masked_logEntry.
  - destruct (tokens_schema tk) as [parsed|]; [|now injection Hrun as _ <-].
    destruct (resolveLibraryIdCalled s || String.prefix "/" id) eqn:Hadm.
    + apply orb_true_iff in Hadm.
      destruct (get_library_docs_admitted srv id parsed tp w s Hl Hadm)
        as (r & w1 & Hrun1 & _ & _ & _ & _ & _ & Hfound & Hnone).
      rewrite (bind_run _ _ _ _ _ Hrun1) in Hrun. injection Hrun as _ <-.
      destruct (truthy _).
      * destruct (Hfound eq_refl) as (_ & Ht & Hst & Hh).
        eapply telemetry_ok_log1; eauto using masked_logEntry.
      * destruct (Hnone eq_refl) as (_ & Ht & Hst & Hh).
        eapply telemetry_ok_log2; eauto using masked_logEntry.
    + apply orb_false_iff in Hadm as [Hres Hpre].
      rewrite (bind_run _ _ _ _ _ (get_library_docs_rejected _ _ _ _ _ _ Hl Hres Hpre))
        in Hrun.
      now injection Hrun as _ <-.
Qed.

Lemma allocated (h : list SessionState) l : is_Some (h !! l) ↔ (l < length h)%nat.
Proof. apply lookup_lt_is_Some. Qed.

(** The invariants that only look at the store and the timers survive any
    change that keeps them and does not shrink the heap. *)
Lemma world_ok_frame w w' :
  (length (heap w) ≤ length (heap w'))%nat →
  sessionStates w' = sessionStates w →
  intervals w' = intervals w →
  telemetry_ok w' →
  world_ok w → world_ok w'.
Proof.
  intros Hlen Hss Hint Htel (Hstore & Hinj & Htimers & _).
  split; [|split; [|split]].
  - intros k l Hk. rewrite Hss in Hk. apply allocated.
    apply Hstore, allocated in Hk. lia.
  - intros k1 k2 l. rewrite Hss. apply Hinj.
  - intros i iv Hi. rewrite Hint in Hi. apply allocated.
    apply Htimers, allocated in Hi. lia.
  - exact Htel.
Qed.

Lemma createServerInstance_ok ip w :
  world_ok w →
  ∃ l w1,
    createServerInstance ip w =
      Some ({| srv_clientIp := ip; srv_identifier := or_else ip "default";
               srv_state := l |}, w1) ∧
    world_ok w1 ∧
    (l < length (heap w1))%nat ∧
    sessionStates w1 !! or_else ip "default" = Some l ∧
    (length (heap w) ≤ length (heap w1))%nat ∧
    intervals w1 = intervals w ∧
    backendCalls w1 = backendCalls w ∧
    (∀ k l', sessionStates w !! k = Some l' → sessionStates w1 !! k = Some l').
Proof.
  intros Hok. pose proof Hok as (Hstore & Hinj & Htimers & Htel).
  destruct (sessionStates w !! or_else ip "default") as [l|] eqn:Hk.
  - exists l, w. rewrite (createServerInstance_known _ _ _ Hk).
    split; [reflexivity|]. split; [exact Hok|].
    split; [apply allocated, (Hstore _ _ Hk)|]. repeat split; auto.
  - eexists _, _. rewrite (createServerInstance_fresh _ _ Hk).
    split; [reflexivity|].
    cbn [heap sessionStates intervals backendCalls set_sessionStates set_heap].
    rewrite length_app. cbn [length].
    split; [|split; [lia|split; [apply lookup_insert_eq|split; [lia|]]]].
    + split; [|split; [|split]].
      * intros k l Hkl. cbn [heap sessionStates set_sessionStates set_heap] in *.
        apply allocated. rewrite length_app. cbn [length].
        destruct (decide (or_else ip "default" = k)) as [<-|Hne].
        -- rewrite lookup_insert_eq in Hkl. injection Hkl as <-. lia.
        -- rewrite lookup_insert_ne in Hkl by exact Hne.
           apply Hstore, allocated in Hkl. lia.
      * intros k1 k2 l. cbn [sessionStates set_sessionStates set_heap].
        destruct (decide (or_else ip "default" = k1)) as [<-|Hne1],
                 (decide (or_else ip "default" = k2)) as [<-|Hne2];
          rewrite ?lookup_insert_eq, ?lookup_insert_ne by assumption.
        -- reflexivity.
        -- intros [= <-] Hk2. apply Hstore, allocated in Hk2. lia.
        -- intros Hk1 [= <-]. apply Hstore, allocated in Hk1. lia.
        -- apply Hinj.
      * intros i iv Hi. cbn [heap intervals set_sessionStates set_heap] in *.
        apply allocated. rewrite length_app.
        apply Htimers, allocated in Hi. lia.
      * exact Htel.
    + repeat split.
      intros k l' Hkl. rewrite lookup_insert_ne; [exact Hkl|]. congruence.
Qed.

Lemma armed_snoc w iv :
  armed (set_intervals (intervals w ++ [Some iv]) w) = S (armed w).
Proof.
  unfold armed. cbn [intervals set_intervals].
  rewrite filter_app, length_app. cbn. rewrite decide_True by eauto.
  simpl. lia.
Qed.

Lemma connect_ok srv w :
  world_ok w → (srv_state srv < length (heap w))%nat →
  ∃ t w2, connect srv w = Some (t, w2) ∧
    world_ok w2 ∧ heap w2 = heap w ∧ sessionStates w2 = sessionStates w ∧
    backendCalls w2 = backendCalls w ∧
    armed w2 = S (armed w) ∧
    intervals w2 !! tr_checkInterval t =
      Some (Some {| iv_period := WATCHDOG_PERIOD; iv_server := srv |}) ∧
    tr_sessionIdentifier t = srv_identifier srv.
Proof.
  intros (Hstore & Hinj & Htimers & Htel) Hl.
  eexists _, _. split; [reflexivity|].
  split; [|split; [reflexivity|split; [reflexivity|split; [reflexivity|
          split; [apply armed_snoc|split; [|reflexivity]]]]]].
  - split; [exact Hstore|]. split; [exact Hinj|]. split; [|exact Htel].
    intros i iv Hi. cbn [heap intervals set_intervals] in *.
    apply lookup_app_Some in Hi as [Hi|[_ Hi]]; [exact (Htimers _ _ Hi)|].
    apply list_lookup_singleton_Some in Hi as [_ [= <-]].
    now apply allocated.
  - cbn [intervals set_intervals tr_checkInterval].
    now rewrite lookup_app_r, Nat.sub_diag by lia.
Qed.

Lemma handleRequest_ok srv call w :
  world_ok w → (srv_state srv < length (heap w))%nat →
  ∃ reply w3, handleRequest srv call w = Some (reply, w3) ∧
    world_ok w3 ∧ length (heap w3) = length (heap w) ∧
    sessionStates w3 = sessionStates w ∧ intervals w3 = intervals w.
Proof.
  intros Hok Hl. apply allocated in Hl as [s Hs].
  destruct (handleRequest_frame srv call w s Hs)
    as (reply & w3 & s' & Hrun & Hheap & Hss & Hint & _).
  exists reply, w3. split; [exact Hrun|].
  assert (Hlen : length (heap w3) = length (heap w))
    by (rewrite Hheap; apply length_insert).
  split; [|auto].
  apply (world_ok_frame w); [lia|assumption..| |exact Hok].
  eapply handleRequest_telemetry; [exact Hs|exact Hrun|apply Hok].
Qed.

Lemma onclose_ok t w : world_ok w → ∃ w', onclose t w = Some (tt, w') ∧ world_ok w' ∧
  heap w' = heap w.
Proof.
  intros (Hstore & Hinj & Htimers & Htel).
  eexists. split; [reflexivity|]. split; [|reflexivity].
  split; [|split; [|split; [|exact Htel]]].
  - intros k l Hk. cbn [heap sessionStates set_sessionStates set_intervals] in *.
    apply lookup_delete_Some in Hk as [_ Hk]. exact (Hstore _ _ Hk).
  - intros k1 k2 l. cbn [sessionStates set_sessionStates set_intervals].
    intros [_ Hk1]%lookup_delete_Some [_ Hk2]%lookup_delete_Some.
    exact (Hinj k1 k2 l Hk1 Hk2).
  - intros i iv Hi. cbn [heap intervals set_sessionStates set_intervals] in *.
    apply list_lookup_insert_Some in Hi as [(_ & [=] & _)|[_ Hi]].
    exact (Htimers _ _ Hi).
Qed.

Lemma fire_ok i w : world_ok w → ∃ w', fire i w = Some (tt, w') ∧ world_ok w' ∧
  length (heap w') = length (heap w).
Proof.
  intros Hok. unfold fire. rewrite gets_run.
  destruct (intervals w !! i) as [[iv|]|] eqn:Hi;
    try (exists w; split; [reflexivity|split; [exact Hok|reflexivity]]).
  pose proof Hok as (Hstore & Hinj & Htimers & Htel).
  destruct (Htimers _ _ Hi) as [s Hs].
  rewrite (checkInterval_run _ _ _ Hs).
  destruct (_ && _);
    [|exists w; split; [reflexivity|split; [exact Hok|reflexivity]]].
  eexists. split; [reflexivity|].
  cbn [heap set_heap set_console]. rewrite length_insert. split; [|reflexivity].
  apply (world_ok_frame w); try reflexivity; try exact Hok; try exact Htel.
  cbn [heap set_heap set_console]. now rewrite length_insert.
Qed.

(** *** The listener *)

Lemma in_world_run {A B} (c : M A) (k : A → HM B) st a w' :
  c (world st) = Some (a, w') →
  (in_world c ≫= k) st = k a {| world := w'; sseTransports := sseTransports st |}.
Proof. intros Hc. unfold mbind, HM_bind, in_world. now rewrite Hc. Qed.

Lemma set_sseTransports_run {B} f (k : unit → HM B) st :
  (set_sseTransports f ≫= k) st =
    k tt {| world := world st; sseTransports := f (sseTransports st) |}.
Proof. reflexivity. Qed.

Lemma registry_ok_frame st st' :
  (length (heap (world st)) ≤ length (heap (world st')))%nat →
  sseTransports st' = sseTransports st →
  registry_ok st → registry_ok st'.
Proof.
  intros Hlen Hreg Hok id t Ht. rewrite Hreg in Ht. apply allocated.
  pose proof (Hok _ _ Ht) as Hal. apply allocated in Hal. lia.
Qed.

(** A tool call run by the listener on an allocated instance. *)
Lemma call_in_state srv call st :
  state_ok st → (srv_state srv < length (heap (world st)))%nat →
  ∃ reply w3,
    handleRequest srv call (world st) = Some (reply, w3) ∧
    state_ok {| world := w3; sseTransports := sseTransports st |} ∧
    length (heap w3) = length (heap (world st)) ∧
    sessionStates w3 = sessionStates (world st) ∧
    intervals w3 = intervals (world st).
Proof.
  intros [Hw Hreg] Hl.
  destruct (handleRequest_ok srv call (world st) Hw Hl)
    as (reply & w3 & Hrun & Hw3 & Hlen & Hss & Hint).
  exists reply, w3. split; [exact Hrun|]. split; [|auto].
  split; [exact Hw3|].
  apply (registry_ok_frame st); [cbn [world]; lia|reflexivity|exact Hreg].
Qed.

(** Every branch of the listener answers with the CORS headers and keeps
    the invariants, the store and the size of the heap. *)
Lemma route_ok req newSessionId srv st :
  state_ok st → (srv_state srv < length (heap (world st)))%nat →
  ∃ resp st', route req newSessionId srv st = Some (resp, st') ∧
    state_ok st' ∧ res_headers resp = CORS_HEADERS ∧
    sessionStates (world st') = sessionStates (world st) ∧
    length (heap (world st')) = length (heap (world st)).
Proof.
  intros Hok Hl. pose proof Hok as [Hw Hreg]. unfold route.
  destruct (String.eqb (pathname req) "/mcp").
  { destruct (connect_ok srv (world st) Hw Hl)
      as (t & w2 & Hconn & Hw2 & Hheap2 & Hss2 & _).
    rewrite (in_world_run _ _ _ _ _ Hconn).
    set (st2 := {| world := w2; sseTransports := sseTransports st |}).
    assert (Hok2 : state_ok st2).
    { split; [exact Hw2|].
      apply (registry_ok_frame st); [cbn; rewrite Hheap2; lia|reflexivity|exact Hreg]. }
    destruct (call_in_state srv (message req) st2 Hok2)
      as (reply & w3 & Hrun & Hok3 & Hlen3 & Hss3 & _);
      [cbn [world st2]; now rewrite Hheap2|].
    rewrite (in_world_run _ _ _ _ _ Hrun).
    eexists _, _. split; [reflexivity|]. split; [exact Hok3|].
    split; [reflexivity|]. subst st2. cbn [world] in *.
    split; [now rewrite Hss3, Hss2|now rewrite Hlen3, Hheap2]. }
  destruct (String.eqb (pathname req) "/sse" && String.eqb (method req) "GET").
  { rewrite set_sseTransports_run.
    destruct (connect_ok srv (world st) Hw Hl)
      as (t & w2 & Hconn & Hw2 & Hheap2 & Hss2 & _).
    rewrite (in_world_run _ _
               {| world := world st;
                  sseTransports :=
                    <[newSessionId := {| sse_sessionId := newSessionId;
                                         sse_server := srv |}]> (sseTransports st) |}
               _ _ Hconn).
    eexists _, _. split; [reflexivity|]. cbn [world sseTransports].
    split; [|split; [reflexivity|split; [exact Hss2|now rewrite Hheap2]]].
    split; [exact Hw2|]. intros id t' Ht'. cbn [world sseTransports] in *.
    rewrite Hheap2. apply allocated.
    destruct (decide (newSessionId = id)) as [<-|Hne].
    - rewrite lookup_insert_eq in Ht'. now injection Ht' as <-.
    - rewrite lookup_insert_ne in Ht' by exact Hne.
      apply allocated. exact (Hreg _ _ Ht'). }
  destruct (String.eqb (pathname req) "/messages" && String.eqb (method req) "POST").
  { cbv zeta. destruct (String.eqb (default "" (sessionIdParam req)) "").
    { exists (respond (Written 400 None "Missing sessionId parameter")), st.
      split; [reflexivity|split; [exact Hok|now repeat split]]. }
    unfold mbind at 1, HM_bind at 1.
    unfold get_property.
    destruct (sseTransports st !! default "" (sessionIdParam req)) as [t|] eqn:Ht.
    - destruct (call_in_state (sse_server t) (message req) st Hok)
        as (reply & w3 & Hrun & Hok3 & Hlen3 & Hss3 & _).
      { apply allocated. exact (Hreg _ _ Ht). }
      rewrite (in_world_run _ _ _ _ _ Hrun).
      eexists _, _. split; [reflexivity|]. split; [exact Hok3|].
      split; [reflexivity|]. cbn [world]. now split.
    - destruct (is_prototype_key _); eexists _, st;
        (split; [reflexivity|split; [exact Hok|now repeat split]]). }
  destruct (String.eqb (pathname req) "/ping"); eexists _, st;
    (split; [reflexivity|split; [exact Hok|now repeat split]]).
Qed.

(** A request whose pathname can be told has a URL that parsed. *)
Lemma url_parsed req : pathname req ≠ "" → is_Some (url req).
Proof. unfold pathname. destruct (url req); [eauto|congruence]. Qed.

(** The listener past its first statement. *)
Lemma listener_parsed req newSessionId :
  is_Some (url req) →
  listener req newSessionId =
    if String.eqb (method req) "OPTIONS" then mret (respond (Written 200 None ""))
    else
      match getClientIp (peer req) with
      | inl _ => mret (respond (Written 500 None "Internal Server Error"))
      | inr ip =>
          requestServer ← in_world (createServerInstance ip);
          route req newSessionId requestServer
      end.
Proof. intros [u Hu]. unfold listener. now rewrite Hu. Qed.

(** The listener when [new URL] throws. *)
Lemma listener_unparsed req newSessionId st :
  url req = None →
  listener req newSessionId st =
    Some ({| res_headers := []; res_answer := Unanswered |}, st).
Proof. intros Hu. unfold listener. now rewrite Hu. Qed.

Lemma listener_ok req newSessionId st :
  state_ok st →
  ∃ resp st', listener req newSessionId st = Some (resp, st') ∧
    state_ok st' ∧
    (is_Some (url req) →
       res_headers resp = CORS_HEADERS ∧
       (method req ≠ "OPTIONS" → ∀ ip, getClientIp (peer req) = inr ip →
          is_Some (sessionStates (world st') !! or_else ip "default"))).
Proof.
  intros Hok. pose proof Hok as [Hw Hreg].
  destruct (url req) as [u|] eqn:Hu.
  2: { eexists _, st. rewrite (listener_unparsed _ _ _ Hu).
       split; [reflexivity|]. split; [exact Hok|]. now intros [? [=]]. }
  rewrite listener_parsed by (rewrite Hu; eauto).
  destruct (String.eqb_spec (method req) "OPTIONS") as [Hopt|Hopt].
  { eexists _, st. split; [reflexivity|]. split; [exact Hok|]. intros _.
    split; [reflexivity|]. intros Hne. congruence. }
  destruct (getClientIp (peer req)) as [e|ip] eqn:Hip.
  { eexists _, st. split; [reflexivity|]. split; [exact Hok|]. intros _.
    split; [reflexivity|]. discriminate. }
  destruct (createServerInstance_ok ip (world st) Hw)
    as (l & w1 & Hcreate & Hw1 & Hl1 & Hkey & Hlen & _).
  rewrite (in_world_run _ _ _ _ _ Hcreate).
  set (st1 := {| world := w1; sseTransports := sseTransports st |}).
  assert (Hok1 : state_ok st1).
  { split; [exact Hw1|].
    apply (registry_ok_frame st); [exact Hlen|reflexivity|exact Hreg]. }
  destruct (route_ok req newSessionId
              {| srv_clientIp := ip; srv_identifier := or_else ip "default";
                 srv_state := l |} st1 Hok1 Hl1)
    as (resp & st' & Hroute & Hok' & Hcors & Hss & _).
  exists resp, st'. split; [exact Hroute|]. split; [exact Hok'|]. intros _.
  split; [exact Hcors|]. intros _ ip' [= <-].
  rewrite Hss. cbn [world st1]. rewrite Hkey. eauto.
Qed.

Lemma step_ok e st :
  state_ok st → ∃ st', step e st = Some (tt, st') ∧ state_ok st'.
Proof.
  intros Hok. pose proof Hok as [Hw Hreg].
  destruct e as [req newSessionId|sessionId|t|i|now]; cbn [step].
  - destruct (listener_ok req newSessionId st Hok) as (resp & st' & Hrun & Hok' & _).
    exists st'. unfold mbind, HM_bind. rewrite Hrun. split; [reflexivity|exact Hok'].
  - eexists. split; [reflexivity|]. split; [exact Hw|].
    intros id t Ht. cbn [world sseTransports] in *.
    apply lookup_delete_Some in Ht as [_ Ht]. exact (Hreg _ _ Ht).
  - destruct (onclose_ok t (world st) Hw) as (w' & Hrun & Hw' & Hheap).
    eexists. unfold in_world. rewrite Hrun. split; [reflexivity|].
    split; [exact Hw'|].
    apply (registry_ok_frame st); [cbn; rewrite Hheap; lia|reflexivity|exact Hreg].
  - destruct (fire_ok i (world st) Hw) as (w' & Hrun & Hw' & Hlen).
    eexists. unfold in_world. rewrite Hrun. split; [reflexivity|].
    split; [exact Hw'|].
    apply (registry_ok_frame st); [cbn; lia|reflexivity|exact Hreg].
  - eexists. split; [reflexivity|]. split; [|exact Hreg].
    destruct Hw as (Hs & Hi & Ht & Htel).
    split; [exact Hs|split; [exact Hi|split; [exact Ht|exact Htel]]].
Qed.

Lemma run_ok es : ∀ st,
  state_ok st → ∃ st', run es st = Some (tt, st') ∧ state_ok st'.
Proof.
  induction es as [|e es IH]; intros st Hok.
  - exists st. split; [reflexivity|exact Hok].
  - destruct (step_ok e st Hok) as (st1 & Hstep & Hok1).
    destruct (IH st1 Hok1) as (st' & Hrun & Hok').
    exists st'. cbn [run]. unfold mbind, HM_bind. rewrite Hstep.
    split; [exact Hrun|exact Hok'].
Qed.

Lemma initial_state_ok t : state_ok (initial_state t).
Proof.
  split; [split; [|split; [|split]]|].
  - intros k l Hk. cbn in Hk. now rewrite lookup_empty in Hk.
  - intros k1 k2 l Hk. cbn in Hk. now rewrite lookup_empty in Hk.
  - intros i iv Hi. cbn in Hi. now rewrite lookup_nil in Hi.
  - repeat split. constructor.
  - intros id tr Ht. cbn in Ht. now rewrite lookup_empty in Ht.
Qed.

(** X13. The telemetry in every state the process reaches from a fresh
    start, whatever requests, closes, timers and clock readings came
    before, requests that the listener leaves unanswered included: the
    total counter is the sum of the two tool counters, the history holds
    as many entries as calls were counted, up to 100, and every client
    address in it is absent or cut to at most eight characters followed
    by three dots. *)
Theorem telemetry_invariants es t0 st :
  run es (initial_state t0) = Some (tt, st) →
  totalCallCount (world st) =
    (resolve_library_id_count (toolCallStats (world st)) +
     get_library_docs_count (toolCallStats (world st)))%Z ∧
  Z.of_nat (length (callHistory (world st))) = Z.min (totalCallCount (world st)) 100 ∧
  Forall masked (callHistory (world st)).
Proof.
  intros Hst. destruct (run_ok es (initial_state t0) (initial_state_ok t0))
    as (st' & Hrun & (_ & _ & _ & Htel) & _).
  rewrite Hst in Hrun. injection Hrun as <-. exact Htel.
Qed.

(** X14. After any run of the process, two instances created one after
    the other are bound to the same session object exactly when their
    client keys are equal; in particular a client without an address and
    a client with an empty address share the session of the key
    [default], and clients with different keys never share one. *)
Theorem instances_share_a_session_iff_keys_equal es t0 ipA ipB :
  Forall event_ok es →
  ∃ st srvA wA srvB wB,
    run es (initial_state t0) = Some (tt, st) ∧
    createServerInstance ipA (world st) = Some (srvA, wA) ∧
    createServerInstance ipB wA = Some (srvB, wB) ∧
    is_Some (heap wB !! srv_state srvA) ∧ is_Some (heap wB !! srv_state srvB) ∧
    (srv_state srvA = srv_state srvB ↔ or_else ipA "default" = or_else ipB "default").
Proof.
  intros _. destruct (run_ok es (initial_state t0) (initial_state_ok t0))
    as (st & Hrun & Hw & _).
  destruct (createServerInstance_ok ipA (world st) Hw)
    as (lA & wA & HcA & HwA & HlA & HkA & _).
  destruct (createServerInstance_ok ipB wA HwA)
    as (lB & wB & HcB & HwB & HlB & HkB & Hlen & _ & _ & Hkeep).
  eexists st, _, wA, _, wB. split; [exact Hrun|]. split; [exact HcA|].
  split; [exact HcB|]. cbn [srv_state].
  split; [apply allocated; lia|]. split; [now apply allocated|].
  split.
  - intros <-. destruct HwB as (_ & Hinj & _).
    exact (Hinj _ _ _ (Hkeep _ _ HkA) HkB).
  - intros Heq. rewrite Heq in HkA.
    rewrite (createServerInstance_known _ _ _ HkA) in HcB. now injection HcB.
Qed.

Lemma eqb_false_of_ne (a b : string) : a ≠ b → String.eqb a b = false.
Proof. apply String.eqb_neq. Qed.

(** The branches that touch neither a transport nor a handler. *)
Lemma route_static req newSessionId srv st :
  pathname req ≠ "/mcp" →
  ¬ (pathname req = "/sse" ∧ method req = "GET") →
  ¬ (pathname req = "/messages" ∧ method req = "POST") →
  route req newSessionId srv st =
    Some (respond (if String.eqb (pathname req) "/ping"
                   then Written 200 (Some "text/plain") "pong"
                   else Written 404 None "Not found"), st).
Proof.
  intros Hmcp Hsse Hmsg. unfold route.
  rewrite (eqb_false_of_ne _ _ Hmcp).
  replace (String.eqb (pathname req) "/sse" && String.eqb (method req) "GET") with false.
  2: { symmetry. apply andb_false_iff.
       destruct (String.eqb_spec (pathname req) "/sse"),
                (String.eqb_spec (method req) "GET"); tauto. }
  replace (String.eqb (pathname req) "/messages" && String.eqb (method req) "POST")
    with false.
  2: { symmetry. apply andb_false_iff.
       destruct (String.eqb_spec (pathname req) "/messages"),
                (String.eqb_spec (method req) "POST"); tauto. }
  now destruct (String.eqb (pathname req) "/ping").
Qed.

(** No branch of [route] leaves the request unanswered. *)
Lemma route_answers req newSessionId srv st resp st' :
  route req newSessionId srv st = Some (resp, st') → res_answer resp ≠ Unanswered.
Proof.
  unfold route. intros Hrun.
  repeat match type of Hrun with
  | (if ?b then _ else _) _ = _ => destruct b
  | (let _ := _ in _) _ = _ => cbv zeta in Hrun
  end.
  all: unfold mbind, HM_bind, in_world, set_sseTransports, mret, HM_ret in Hrun.
  all: repeat match type of Hrun with
  | context [match ?c with _ => _ end] => destruct c as [[? ?]|] eqn:?
  end.
  all: try discriminate.
  all: try (injection Hrun as <- _; discriminate).
  destruct (get_property _ _) as [t| |]; try (injection Hrun as <- _; discriminate).
  destruct (handleRequest _ _ _) as [[reply w']|]; [|discriminate].
  injection Hrun as <- _. discriminate.
Qed.

(** X15. Answers the listener writes itself.  A request whose target and
    [Host] header do not make a URL is not answered: the listener throws
    before it sets a header, and nothing of the state changes.  Every
    other request is answered with the four CORS headers.  Of those, an
    [OPTIONS] request gets 200 and changes nothing, whatever its path.
    When the client address cannot be read the answer is 500 and nothing
    changes.  Otherwise a request that hits none of [/mcp], [GET /sse]
    and [POST /messages] gets [pong] on [/ping] and 404 elsewhere, with
    any method, and the only change is the session that
    [createServerInstance] stores for the client. *)
Theorem listener_static_answers req newSessionId st :
  state_ok st →
  (url req = None →
     listener req newSessionId st =
       Some ({| res_headers := []; res_answer := Unanswered |}, st)) ∧
  (is_Some (url req) →
     (∃ resp st', listener req newSessionId st = Some (resp, st') ∧
        res_headers resp = CORS_HEADERS ∧ res_answer resp ≠ Unanswered) ∧
     (method req = "OPTIONS" →
        listener req newSessionId st = Some (respond (Written 200 None ""), st)) ∧
     (method req ≠ "OPTIONS" → getClientIp (peer req) = inl TypeErrorThrown →
        listener req newSessionId st =
          Some (respond (Written 500 None "Internal Server Error"), st)) ∧
     (method req ≠ "OPTIONS" →
      pathname req ≠ "/mcp" →
      ¬ (pathname req = "/sse" ∧ method req = "GET") →
      ¬ (pathname req = "/messages" ∧ method req = "POST") →
      ∀ ip, getClientIp (peer req) = inr ip →
        ∃ srv w1,
          createServerInstance ip (world st) = Some (srv, w1) ∧
          listener req newSessionId st =
            Some (respond (if String.eqb (pathname req) "/ping"
                           then Written 200 (Some "text/plain") "pong"
                           else Written 404 None "Not found"),
                  {| world := w1; sseTransports := sseTransports st |}))).
Proof.
  intros Hok. split; [apply listener_unparsed|]. intros Hurl.
  split; [|split; [|split]].
  - destruct (listener_ok req newSessionId st Hok) as (resp & st' & Hrun & _ & Hparsed).
    exists resp, st'. split; [exact Hrun|]. split; [apply (Hparsed Hurl)|].
    rewrite listener_parsed in Hrun by exact Hurl.
    destruct (String.eqb (method req) "OPTIONS");
      [injection Hrun as <- _; discriminate|].
    destruct (getClientIp (peer req)) as [e|ip];
      [injection Hrun as <- _; discriminate|].
    destruct (createServerInstance_ok ip (world st) (proj1 Hok))
      as (l & w1 & Hcreate & Hw1 & Hl1 & _ & Hlen & _).
    rewrite (in_world_run _ _ _ _ _ Hcreate) in Hrun.
    apply (route_answers _ _ _ _ _ _ Hrun).
  - intros Hopt. rewrite listener_parsed by exact Hurl. now rewrite Hopt.
  - intros Hopt Hip. rewrite listener_parsed by exact Hurl.
    now rewrite (eqb_false_of_ne _ _ Hopt), Hip.
  - intros Hopt Hmcp Hsse Hmsg ip Hip.
    destruct (createServerInstance_ok ip (world st) (proj1 Hok))
      as (l & w1 & Hcreate & _).
    eexists _, w1. split; [exact Hcreate|]. rewrite listener_parsed by exact Hurl.
    rewrite (eqb_false_of_ne _ _ Hopt), Hip, (in_world_run _ _ _ _ _ Hcreate).
    now apply route_static.
Qed.

(** X16. Every request whose URL parses, other than [OPTIONS], and whose
    client address can be read is answered and leaves a session stored
    under the client key, whichever branch it takes, [/ping] and unknown
    paths included; the invariants of the process are kept.  A request
    whose URL does not parse stores nothing. *)
Theorem every_request_registers_a_session req newSessionId ip st :
  state_ok st →
  method req ≠ "OPTIONS" →
  getClientIp (peer req) = inr ip →
  (is_Some (url req) →
     ∃ resp st', listener req newSessionId st = Some (resp, st') ∧
       res_answer resp ≠ Unanswered ∧
       is_Some (sessionStates (world st') !! or_else ip "default") ∧
       state_ok st') ∧
  (url req = None →
     ∃ resp, listener req newSessionId st = Some (resp, st) ∧
       res_answer resp = Unanswered).
Proof.
  intros Hok Hopt Hip. split.
  - intros Hurl.
    destruct (listener_ok req newSessionId st Hok) as (resp & st' & Hrun & Hok' & Hparsed).
    destruct (Hparsed Hurl) as [_ Hkey].
    exists resp, st'. split; [exact Hrun|]. split; [|split; [now apply Hkey|exact Hok']].
    rewrite listener_parsed in Hrun by exact Hurl.
    rewrite (eqb_false_of_ne _ _ Hopt), Hip in Hrun.
    destruct (createServerInstance_ok ip (world st) (proj1 Hok))
      as (l & w1 & Hcreate & _).
    rewrite (in_world_run _ _ _ _ _ Hcreate) in Hrun.
    apply (route_answers _ _ _ _ _ _ Hrun).
  - intros Hu. eexists. split; [apply (listener_unparsed _ _ _ Hu)|reflexivity].
Qed.

(** [POST /messages] for an id that the registry does not hold. *)
Lemma route_messages_none req newSessionId srv st :
  method req = "POST" →
  pathname req = "/messages" →
  sseTransports st !! default "" (sessionIdParam req) = None →
  route req newSessionId srv st =
    Some (respond
            (if String.eqb (default "" (sessionIdParam req)) ""
             then Written 400 None "Missing sessionId parameter"
             else if is_prototype_key (default "" (sessionIdParam req))
             then Written 500 None "Internal Server Error"
             else Written 400 None
                    ("No transport found for sessionId: " ++
                     default "" (sessionIdParam req))), st).
Proof.
  intros Hmethod Hpath Hnone. unfold route. rewrite Hpath, Hmethod.
  cbn [String.eqb Ascii.eqb Bool.eqb andb]. cbv zeta.
  destruct (String.eqb (default "" (sessionIdParam req)) ""); [reflexivity|].
  unfold mbind, HM_bind, get_property. rewrite Hnone.
  now destruct (is_prototype_key _).
Qed.

(** X17. [POST /messages] without a channel: a missing or empty
    [sessionId] is answered 400 [Missing sessionId parameter]; an id that
    is not in the registry is answered 400 naming the id, unless it is a
    property name of [Object.prototype], which is answered 500; in all
    three cases no handler runs and the registry and the timers are
    untouched. *)
Theorem messages_without_channel req newSessionId ip st :
  state_ok st →
  method req = "POST" →
  pathname req = "/messages" →
  getClientIp (peer req) = inr ip →
  sseTransports st !! default "" (sessionIdParam req) = None →
  ∃ srv w1,
    createServerInstance ip (world st) = Some (srv, w1) ∧
    intervals w1 = intervals (world st) ∧
    backendCalls w1 = backendCalls (world st) ∧
    listener req newSessionId st =
      Some (respond
              (if String.eqb (default "" (sessionIdParam req)) ""
               then Written 400 None "Missing sessionId parameter"
               else if is_prototype_key (default "" (sessionIdParam req))
               then Written 500 None "Internal Server Error"
               else Written 400 None
                      ("No transport found for sessionId: " ++
                       default "" (sessionIdParam req))),
            {| world := w1; sseTransports := sseTransports st |}).
Proof.
  intros Hok Hmethod Hpath Hip Hnone.
  destruct (createServerInstance_ok ip (world st) (proj1 Hok))
    as (l & w1 & Hcreate & _ & _ & _ & _ & Hint & Hcalls & _).
  eexists _, w1. split; [exact Hcreate|]. split; [exact Hint|]. split; [exact Hcalls|].
  rewrite listener_parsed by (apply url_parsed; rewrite Hpath; discriminate).
  rewrite Hmethod. cbn [String.eqb Ascii.eqb Bool.eqb].
  rewrite Hip, (in_world_run _ _ _ _ _ Hcreate).
  now apply route_messages_none.
Qed.

(** X18. The event-stream channel, from registration to removal.
    [GET /sse] stores the new transport under the id the SDK gave it,
    bound to an instance of the client that opened the stream.  A
    [resolve-library-id] message posted with that id, from any address,
    runs on that instance: the search is made in the name of the client
    that opened the stream and its session is the one marked.  After the
    response's [close] callback the id is gone and the same post is
    answered 400. *)
Theorem sse_channel_round_trip reqG reqP newSessionId otherId ipG ipP name st :
  state_ok st →
  method reqG = "GET" → pathname reqG = "/sse" →
  getClientIp (peer reqG) = inr ipG →
  method reqP = "POST" → pathname reqP = "/messages" →
  sessionIdParam reqP = Some newSessionId →
  message reqP = CallResolve name →
  getClientIp (peer reqP) = inr ipP →
  newSessionId ≠ "" → is_prototype_key newSessionId = false →
  ∃ t srvG st1,
    listener reqG newSessionId st =
      Some (respond (EventStreamOpened newSessionId t), st1) ∧
    sseTransports st1 !! newSessionId =
      Some {| sse_sessionId := newSessionId; sse_server := srvG |} ∧
    srv_clientIp srvG = ipG ∧
    tr_sessionIdentifier t = or_else ipG "default" ∧
    (∃ reply st2 s,
       listener reqP otherId st1 =
         Some (respond (HandledByTransport reply None), st2) ∧
       heap (world st2) !! srv_state srvG = Some s ∧
       resolveLibraryIdCalled s = true ∧
       backendCalls (world st2) =
         (backendCalls (world st1) ++ [SearchCall name ipG])%list) ∧
    (∃ st1c st3,
       response_closed newSessionId st1 = Some (tt, st1c) ∧
       sseTransports st1c !! newSessionId = None ∧
       listener reqP otherId st1c =
         Some (respond (Written 400 None
                 ("No transport found for sessionId: " ++ newSessionId)), st3)).
Proof.
  intros Hok HmG HpG HipG HmP HpP Hsid Hmsg HipP Hne Hproto.
  destruct (createServerInstance_ok ipG (world st) (proj1 Hok))
    as (l & w1 & Hcreate & Hw1 & Hl1 & _).
  set (srvG := {| srv_clientIp := ipG; srv_identifier := or_else ipG "default";
                  srv_state := l |}) in *.
  destruct (connect_ok srvG w1 Hw1 Hl1)
    as (t & w2 & Hconn & Hw2 & Hheap2 & _ & _ & _ & _ & Hident).
  set (st1 := {| world := w2;
                 sseTransports :=
                   <[newSessionId := {| sse_sessionId := newSessionId;
                                        sse_server := srvG |}]> (sseTransports st) |}).
  assert (HrunG : listener reqG newSessionId st =
                  Some (respond (EventStreamOpened newSessionId t), st1)).
  { rewrite listener_parsed by (apply url_parsed; rewrite HpG; discriminate).
    rewrite HmG. cbn [String.eqb Ascii.eqb Bool.eqb].
    rewrite HipG, (in_world_run _ _ _ _ _ Hcreate).
    unfold route. rewrite HpG, HmG. cbn [String.eqb Ascii.eqb Bool.eqb andb].
    rewrite set_sseTransports_run.
    now rewrite (in_world_run _ _
                   {| world := w1;
                      sseTransports :=
                        <[newSessionId := {| sse_sessionId := newSessionId;
                                             sse_server := srvG |}]> (sseTransports st) |}
                   _ _ Hconn). }
  assert (Hok1 : state_ok st1).
  { destruct (listener_ok reqG newSessionId st Hok) as (resp & st' & Hrun & Hok' & _).
    rewrite HrunG in Hrun. now injection Hrun as _ <-. }
  assert (Hreg1 : sseTransports st1 !! newSessionId =
                  Some {| sse_sessionId := newSessionId; sse_server := srvG |})
    by apply lookup_insert_eq.
  assert (HmP' : String.eqb (method reqP) "OPTIONS" = false) by now rewrite HmP.
  assert (Hsid' : default "" (sessionIdParam reqP) = newSessionId) by now rewrite Hsid.
  exists t, srvG, st1. split; [exact HrunG|]. split; [exact Hreg1|].
  split; [reflexivity|]. split; [exact Hident|]. split.
  - destruct (createServerInstance_ok ipP (world st1) (proj1 Hok1))
      as (lP & w3 & HcreateP & Hw3 & _ & _ & Hlen3 & _ & Hcalls3 & _).
    assert (Hl3 : (srv_state srvG < length (heap w3))%nat).
    { cbn [world st1 srv_state srvG] in *. rewrite Hheap2 in Hlen3. lia. }
    apply allocated in Hl3 as [s3 Hs3].
    destruct (resolve_library_id_run srvG name w3 s3 Hs3)
      as (r & w4 & Hrun4 & Hheap4 & Hcalls4 & _).
    eexists (ToolReply r), {| world := w4; sseTransports := sseTransports st1 |}, _.
    split; [|split; [|split]].
    + rewrite listener_parsed by (apply url_parsed; rewrite HpP; discriminate).
      rewrite HmP', HipP, (in_world_run _ _ _ _ _ HcreateP).
      unfold route. rewrite HpP, HmP. cbn [String.eqb Ascii.eqb Bool.eqb andb].
      cbv zeta. rewrite Hsid', (eqb_false_of_ne _ _ Hne).
      unfold mbind at 1, HM_bind at 1. unfold get_property.
      cbn [sseTransports]. fold st1. rewrite Hreg1. cbn [sse_server].
      rewrite Hmsg.
      rewrite (in_world_run _ _
                 {| world := w3; sseTransports := sseTransports st1 |} (ToolReply r) w4);
        [reflexivity|].
      cbn [handleRequest world]. now rewrite (bind_run _ _ _ _ _ Hrun4).
    + cbn [world]. rewrite Hheap4. eapply lookup_written, Hs3.
    + reflexivity.
    + cbn [world]. now rewrite Hcalls4, Hcalls3.
  - destruct (step_ok (EvResponseClosed newSessionId) st1 Hok1) as (st1c & Hstep & Hok1c).
    cbn [step] in Hstep.
    assert (Hgone : sseTransports st1c !! newSessionId = None).
    { unfold response_closed, set_sseTransports in Hstep. injection Hstep as <-.
      apply lookup_delete_eq. }
    destruct (createServerInstance_ok ipP (world st1c) (proj1 Hok1c))
      as (lP & w3 & HcreateP & _).
    eexists st1c, _. split; [exact Hstep|]. split; [exact Hgone|].
    rewrite listener_parsed by (apply url_parsed; rewrite HpP; discriminate).
    rewrite HmP', HipP, (in_world_run _ _ _ _ _ HcreateP).
    rewrite route_messages_none; [|exact HmP|exact HpP|now rewrite Hsid'].
    now rewrite Hsid', (eqb_false_of_ne _ _ Hne), Hproto.
Qed.

Lemma armed_intervals w w' : intervals w' = intervals w → armed w' = armed w.
Proof. unfold armed. now intros ->. Qed.

(** A request that reaches the [/mcp] branch arms one timer. *)
Lemma listener_mcp_arms req newSessionId st :
  state_ok st → is_mcp_request req →
  ∃ resp st', listener req newSessionId st = Some (resp, st') ∧
    state_ok st' ∧ armed (world st') = S (armed (world st)).
Proof.
  intros Hok (Hopt & Hpath & ip & Hip).
  destruct (listener_ok req newSessionId st Hok) as (resp & st' & Hrun & Hok' & _).
  exists resp, st'. split; [exact Hrun|]. split; [exact Hok'|].
  destruct (createServerInstance_ok ip (world st) (proj1 Hok))
    as (l & w1 & Hcreate & Hw1 & Hl1 & _ & _ & Hint1 & _).
  set (srv := {| srv_clientIp := ip; srv_identifier := or_else ip "default";
                 srv_state := l |}) in *.
  destruct (connect_ok srv w1 Hw1 Hl1)
    as (t & w2 & Hconn & Hw2 & Hheap2 & _ & _ & Harm & _).
  destruct (handleRequest_ok srv (message req) w2 Hw2) as (reply & w3 & Hcall & _ & _ & _ & Hint3);
    [rewrite Hheap2; exact Hl1|].
  rewrite listener_parsed in Hrun by (apply url_parsed; rewrite Hpath; discriminate).
  rewrite (eqb_false_of_ne _ _ Hopt), Hip, (in_world_run _ _ _ _ _ Hcreate) in Hrun.
  unfold route in Hrun. rewrite Hpath in Hrun.
  cbn [String.eqb Ascii.eqb Bool.eqb] in Hrun.
  rewrite (in_world_run _ _ {| world := w1; sseTransports := sseTransports st |}
             _ _ Hconn) in Hrun.
  rewrite (in_world_run _ _ {| world := w2; sseTransports := sseTransports st |}
             _ _ Hcall) in Hrun.
  injection Hrun as _ <-. cbn [world].
  now rewrite (armed_intervals _ _ Hint3), Harm, (armed_intervals _ _ Hint1).
Qed.

(** X19. Timers pile up on [/mcp]: every request that reaches the [/mcp]
    branch arms one more timer and the listener never clears one, so
    after any run of such requests the number of armed timers has grown
    by the number of requests. *)
Theorem mcp_requests_accumulate_timers reqs newSessionId : ∀ st,
  state_ok st →
  Forall is_mcp_request reqs →
  ∃ st', run (map (λ req, EvRequest req newSessionId) reqs) st = Some (tt, st') ∧
    armed (world st') = (armed (world st) + length reqs)%nat ∧
    state_ok st'.
Proof.
  induction reqs as [|req reqs IH]; intros st Hok Hall.
  - exists st. split; [reflexivity|]. split; [cbn; lia|exact Hok].
  - apply Forall_cons in Hall as [Hreq Hall].
    destruct (listener_mcp_arms req newSessionId st Hok Hreq)
      as (resp & st1 & Hrun & Hok1 & Harm).
    destruct (IH st1 Hok1 Hall) as (st' & Hrun' & Harm' & Hok').
    exists st'. split; [|split; [|exact Hok']].
    + cbn [map run step]. unfold mbind, HM_bind. rewrite Hrun. exact Hrun'.
    + rewrite Harm', Harm. cbn [length]. lia.
Qed.

(** *** Sessions across requests *)










End Properties.

(** ** The script on concrete inputs *)

Example containsErrorMessage_examples :
  containsErrorMessage "ImportError: No Module Named requests" = true ∧
  containsErrorMessage "react-query" = false.
Proof. split; reflexivity. Qed.

Example mask_ip_examples :
  mask_ip (Some "192.168.10.20") = Some "192.168...." ∧
  mask_ip (Some "::1") = Some "::1..." ∧
  mask_ip (Some "") = None ∧ mask_ip None = None.
Proof. repeat split; reflexivity. Qed.

Example getClientIp_examples :
  getClientIp (H := demo_backend)
    {| x_forwarded_for := Some (HString "203.0.113.7,10.0.0.1");
       remoteAddress := Some "10.0.0.1" |} = inr (Some "203.0.113.7") ∧
  getClientIp (H := demo_backend) demo_request = inr (Some "10.0.0.1") ∧
  getClientIp (H := demo_backend)
    {| x_forwarded_for := None; remoteAddress := None |} = inr None.
Proof. repeat split; reflexivity. Qed.

Example startServer_examples :
  main_startServer (busy_below 3002) None =
    ([PortInUse 3000 3001; PortInUse 3001 3002;
      RunningOn 3000; RunningOn 3001; RunningOn 3002], Running 3002) ∧
  main_startServer (busy_below 0) None = ([RunningOn 3000], Running 3000) ∧
  snd (main_startServer (busy_below 3010) (Some 3000)) = Running 3010 ∧
  snd (main_startServer (busy_below 3011) (Some 3000)) = Exited 1 ∧
  main_startServer (λ _, ListenError (Some "EACCES")) (Some 80) =
    ([FailedToStart], Exited 1).
Proof. repeat split; vm_compute; reflexivity. Qed.

(** ** The claims on concrete inputs *)



Lemma transform_tokens_clamp_witness :
  transform_tokens 5%float = DEFAULT_MINIMUM_TOKENS ∧
  transform_tokens 20000%float = 20000%float ∧
  transform_tokens (transform_tokens 5%float) = transform_tokens 5%float ∧
  PrimFloat.leb (transform_tokens 5%float) (transform_tokens 20000%float) = true ∧
  tokens_schema (Some 5%float) = Some (Some (transform_tokens 5%float)) ∧
  (∃ r w', handleRequest (H := demo_backend) demo_server
             (CallDocs "react" None (Some 5%float)) (demo_world true false 0) =
             Some (ToolReply r, w') ∧
     backendCalls w' =
       (backendCalls (demo_world true false 0) ++
          [FetchCall "react" {| tokens := transform_tokens 5%float; topic := "" |}
             (Some "10.0.0.1")])%list) ∧
  handleRequest (H := demo_backend) demo_server
    (CallDocs "react" None (Some PrimFloat.nan)) (demo_world true false 0) =
    Some (InvalidParams, demo_world true false 0).
Proof.
  destruct (transform_tokens_clamp (H := demo_backend))
    as (Hbelow & Habove & Hidem & Hmono & Hschema & _ & Hcall & Hnan).
  split; [apply Hbelow; reflexivity|].
  split; [apply Habove; reflexivity|].
  split; [apply Hidem|]. split; [apply Hmono; reflexivity|].
  split; [apply Hschema; reflexivity|]. split.
  - apply (Hcall demo_server "react" None (Some 5%float) (demo_world true false 0) _
             eq_refl (or_introl eq_refl) eq_refl).
  - apply Hnan. reflexivity.
Defined.

Lemma callHistory_last_100_witness :
  (length (callHistory (initial_world 0)) ≤ 100)%nat ∧
  ∃ w', record_all (H := demo_backend) (map demo_record (map Z.of_nat (seq 0 150)))
          (initial_world 0) = Some (tt, w') ∧
        length (callHistory w') = 100%nat.
Proof.
  split; [simpl; lia|].
  destruct (callHistory_last_100 (H := demo_backend) (initial_world 0)
              (map demo_record (map Z.of_nat (seq 0 150))))
    as (w' & Hrun & _ & _ & Hnil); [simpl; lia|].
  exists w'. split; [exact Hrun|].
  destruct (Hnil eq_refl) as (_ & Hlen & _).
  apply Hlen. simpl. lia.
Defined.

Lemma gate_guides_before_resolve_witness :
  heap (demo_world false false 0) !! srv_state demo_server = Some new_session ∧
  (∃ w', get_library_docs (H := demo_backend) demo_server "react-query" None None
           (demo_world false false 0) = Some (text_result MUST_RESOLVE_FIRST, w') ∧
         backendCalls w' = backendCalls (demo_world false false 0) ∧
         w' = demo_world false false 0) ∧
  (∃ r w', get_library_docs (H := demo_backend) demo_server "/facebook/react" None None
             (demo_world false false 0) = Some (r, w') ∧
           heap w' !! srv_state demo_server =
             Some (set_getLibraryDocsCalled true new_session) ∧
           backendCalls w' =
             (backendCalls (demo_world false false 0) ++
                [FetchCall "/facebook/react"
                   {| tokens := DEFAULT_MINIMUM_TOKENS; topic := "" |}
                   (Some "10.0.0.1")])%list).
Proof.
  assert (Hl : heap (demo_world false false 0) !! srv_state demo_server = Some new_session)
    by reflexivity.
  split; [exact Hl|]. split.
  - apply (gate_guides_before_resolve (H := demo_backend) demo_server _ _
             "react-query" None None Hl); reflexivity.
  - apply (gate_guides_before_resolve (H := demo_backend) demo_server _ _
             "/facebook/react" None None Hl); reflexivity.
Defined.

Lemma gate_enables_repeated_docs_witness :
  ∃ rs w' s',
    docs_calls (H := demo_backend) demo_server
      [{| da_id := "react"; da_tokens := None; da_topic := None |};
       {| da_id := "react"; da_tokens := Some 20000%float; da_topic := Some "hooks" |}]
      (demo_world true false 2000) = Some (rs, w') ∧
    length rs = 2%nat ∧
    heap w' !! srv_state demo_server = Some s' ∧
    resolveLibraryIdCalled s' = true ∧ getLibraryDocsCalled s' = true.
Proof.
  destruct (gate_enables_repeated_docs (H := demo_backend) demo_server
              [{| da_id := "react"; da_tokens := None; da_topic := None |};
               {| da_id := "react"; da_tokens := Some 20000%float;
                  da_topic := Some "hooks" |}]
              (demo_world true false 2000) _ eq_refl eq_refl)
    as (rs & w' & s' & Hrun & Hlen & _ & Hl & Hres & Hdocs).
  exists rs, w', s'. split; [exact Hrun|]. split; [exact Hlen|].
  split; [exact Hl|]. split; [exact Hres|].
  apply Hdocs. right. discriminate.
Defined.

Lemma watchdog_resets_stale_session_witness :
  (∃ w' s', fire 0 (demo_timer_world true false 80000) = Some (tt, w') ∧
     heap w' !! srv_state demo_server = Some s' ∧
     resolveLibraryIdCalled s' = false ∧ getLibraryDocsCalled s' = false ∧
     console w' = [WatchdogWarning "10.0.0.1"]) ∧
  fire 0 (demo_timer_world true true 80000) =
    Some (tt, demo_timer_world true true 80000).
Proof.
  split.
  - apply (watchdog_resets_stale_session 0 _
             (demo_timer_world true false 80000) _ eq_refl eq_refl);
      [reflexivity|reflexivity|simpl; unfold RESOLVE_TIMEOUT; lia].
  - apply (watchdog_resets_stale_session 0 _
             (demo_timer_world true true 80000) _ eq_refl eq_refl).
    reflexivity.
Defined.

Lemma startServer_port_fallback_witness :
  snd (main_startServer (busy_below 3002) None) = Running 3002 ∧
  ∃ status, snd (main_startServer (busy_below 4000) None) = Exited status ∧ status ≠ 0.
Proof.
  split.
  - apply (startServer_port_fallback (busy_below 3002) 3000 10 2); [lia| |reflexivity].
    intros j Hj. unfold busy_below.
    replace (Z.ltb j 3002) with true by (symmetry; apply Z.ltb_lt; lia). reflexivity.
  - apply (startServer_port_fallback (busy_below 4000) 3000 10 10); [lia| |reflexivity|reflexivity].
    intros j Hj. unfold busy_below.
    replace (Z.ltb j 4000) with true by (symmetry; apply Z.ltb_lt; lia). reflexivity.
Defined.

Lemma resolve_sets_gate_witness :
  ∃ r w', resolve_library_id (H := demo_backend) demo_server "left-pad"
            (demo_world false true 5) = Some (r, w') ∧
    heap w' !! srv_state demo_server =
      Some {| resolveLibraryIdCalled := true; getLibraryDocsCalled := false;
              lastResolveLibraryIdTime := Some 5 |} ∧
    r = text_result FAILED_TO_RETRIEVE.
Proof.
  destruct (resolve_sets_gate (H := demo_backend) demo_server "left-pad"
              (demo_world false true 5) _ eq_refl)
    as (r & w' & Hrun & _ & Hl & Hnone & _).
  exists r, w'. split; [exact Hrun|]. split; [exact Hl|].
  apply Hnone. reflexivity.
Defined.


Lemma empty_result_is_recorded_twice_witness :
  ∃ r w' e1 e2,
    get_library_docs (H := demo_backend) demo_server "/no/such" None None
      (demo_world false false 5) = Some (r, w') ∧
    success e1 = true ∧ success e2 = false ∧
    callHistory w' = [e1; e2] ∧
    totalCallCount w' = 2.
Proof.
  destruct (empty_result_is_recorded_twice (H := demo_backend) demo_server
              (demo_world false false 5) _ eq_refl) as (_ & Hdocs).
  destruct (Hdocs "/no/such" None None (or_intror eq_refl) eq_refl)
    as (r & w' & e1 & e2 & Hrun & Hs1 & Hs2 & _ & _ & _ & Hh & Ht & _).
  exists r, w', e1, e2. split; [exact Hrun|]. split; [exact Hs1|]. split; [exact Hs2|].
  split; [apply Hh; simpl; lia|exact Ht].
Defined.


(** ** The further properties on concrete inputs *)

Lemma getSessionState_get_or_create_witness :
  ∃ l w', getSessionState "10.0.0.9" (initial_world 0) = Some (l, w') ∧
    getSessionState "10.0.0.9" w' = Some (l, w') ∧
    heap w' !! l = Some new_session.
Proof.
  assert (Hok : store_ok (initial_world 0)).
  { intros k l Hk. simpl in Hk. rewrite lookup_empty in Hk. discriminate. }
  destruct (getSessionState_get_or_create "10.0.0.9" (initial_world 0) Hok)
    as (l & w' & Hrun & _ & Hagain & _ & _ & _ & Hfresh & _).
  exists l, w'. split; [exact Hrun|]. split; [exact Hagain|].
  apply Hfresh. reflexivity.
Defined.

Lemma resolve_does_not_open_other_sessions_witness :
  ∃ r w1, resolve_library_id (H := demo_backend) demo_server "react" (demo_world2 0) =
            Some (r, w1) ∧
    get_library_docs (H := demo_backend) demo_server_b "react" None None w1 =
      Some (text_result MUST_RESOLVE_FIRST, w1).
Proof.
  destruct (resolve_does_not_open_other_sessions (H := demo_backend)
              demo_server demo_server_b "react" "react" None None (demo_world2 0)
              new_session new_session eq_refl eq_refl)
    as (r & w1 & Hrun & _ & _ & Hrej); [discriminate|reflexivity|reflexivity|].
  exists r, w1. split; assumption.
Defined.

Lemma explicit_id_does_not_open_gate_witness :
  ∃ r1 w1, get_library_docs (H := demo_backend) demo_server "/facebook/react" None None
             (demo_world false false 0) = Some (r1, w1) ∧
    get_library_docs (H := demo_backend) demo_server "react" None None w1 =
      Some (text_result MUST_RESOLVE_FIRST, w1).
Proof.
  destruct (explicit_id_does_not_open_gate (H := demo_backend) demo_server
              "/facebook/react" None None "react" None None (demo_world false false 0)
              new_session eq_refl eq_refl eq_refl eq_refl)
    as (r1 & w1 & Hrun & _ & _ & Hrej).
  exists r1, w1. split; assumption.
Defined.

Lemma containsErrorMessage_patterns_witness :
  containsErrorMessage ("pandas: " ++ "Import Error" ++ " on line 3") = true.
Proof.
  destruct (containsErrorMessage_patterns "Import Error") as (_ & Hctx & _).
  apply Hctx. reflexivity.
Defined.

Lemma logged_address_keeps_eight_characters_witness :
  ∃ w' e p rest w2 e2,
    logToolCall (H := demo_backend) ResolveLibraryId (Some "react") None
      (Some "10.0.0.1") true (initial_world 0) = Some (tt, w') ∧
    last (callHistory w') = Some e ∧
    "10.0.0.1" = p ++ rest ∧ clientIp e = Some (p ++ "...") ∧ p = "10.0.0.1" ∧
    logToolCall (H := demo_backend) ResolveLibraryId (Some "react") None
      (Some "10.0.0.1:4711") true (initial_world 0) = Some (tt, w2) ∧
    last (callHistory w2) = Some e2 ∧
    clientIp e2 = clientIp e.
Proof.
  destruct (logged_address_keeps_eight_characters (H := demo_backend) ResolveLibraryId
              (Some "react") None (Some "10.0.0.1") true (initial_world 0))
    as (w' & e & Hrun & Hlast & _ & Hcut & Hsame).
  destruct (Hcut "10.0.0.1" eq_refl) as (p & rest & Hsplit & _ & Hmask & _ & Hshort);
    [discriminate|].
  destruct (Hsame "10.0.0.1" "10.0.0.1:4711" eq_refl)
    as (w2 & e2 & Hrun2 & Hlast2 & Heq); [discriminate|discriminate|reflexivity|].
  exists w', e, p, rest, w2, e2. repeat split; try assumption.
  apply Hshort. simpl. lia.
Defined.

Lemma getClientIp_derivation_witness :
  getClientIp (H := demo_backend)
    {| x_forwarded_for := Some (HString "203.0.113.7,10.0.0.1");
       remoteAddress := Some "10.0.0.1" |} =
    inr (Some (trim (Collaborators := demo_backend) (before_comma "203.0.113.7,10.0.0.1"))).
Proof.
  apply (getClientIp_derivation (H := demo_backend)). discriminate.
Defined.

Lemma backend_tokens_at_least_floor_witness :
  ∃ r w', handleRequest (H := demo_backend) demo_server
            (CallDocs "react" None (Some 5%float)) (demo_world true false 0) =
            Some (ToolReply r, w') ∧
    (backendCalls w' = backendCalls (demo_world true false 0) ∨
     ∃ t, backendCalls w' =
            (backendCalls (demo_world true false 0) ++
               [FetchCall "react" {| tokens := t; topic := "" |} (Some "10.0.0.1")])%list ∧
          PrimFloat.leb DEFAULT_MINIMUM_TOKENS t = true ∧
          (Some 5%float = None → t = DEFAULT_MINIMUM_TOKENS) ∧
          (∀ v, Some 5%float = Some v → t = transform_tokens v)).
Proof.
  exact (backend_tokens_at_least_floor (H := demo_backend) demo_server "react" None
           (Some 5%float) (demo_world true false 0) _ eq_refl).
Defined.

Lemma watchdog_spares_sessions_in_time_witness :
  fire 0 (demo_timer_world true false 76000) = Some (tt, demo_timer_world true false 76000) ∧
  fire 7 (demo_timer_world true false 90000) = Some (tt, demo_timer_world true false 90000).
Proof.
  split.
  - apply (proj2 (watchdog_spares_sessions_in_time 0 (demo_timer_world true false 76000))
             _ _ eq_refl eq_refl).
    right. right. simpl. unfold RESOLVE_TIMEOUT. lia.
  - apply (proj1 (watchdog_spares_sessions_in_time 7 (demo_timer_world true false 90000))).
    left. reflexivity.
Defined.

Lemma stale_resolve_must_be_repeated_witness :
  ∃ r w1 w2,
    resolve_library_id (H := demo_backend) demo_server "react"
      (demo_timer_world false false 1000) = Some (r, w1) ∧
    fire 0 (set_clock 80000 w1) = Some (tt, w2) ∧
    get_library_docs (H := demo_backend) demo_server "react" None None w2 =
      Some (text_result MUST_RESOLVE_FIRST, w2).
Proof.
  destruct (stale_resolve_must_be_repeated (H := demo_backend) demo_server 0
              WATCHDOG_PERIOD "react" "react" None None
              (demo_timer_world false false 1000) new_session 80000
              eq_refl eq_refl eq_refl)
    as (r & w1 & Hrun & Hstale & _).
  destruct Hstale as (w2 & Hfire & _ & Hrej); [simpl; unfold RESOLVE_TIMEOUT; lia|].
  exists r, w1, w2. repeat split; assumption.
Defined.

Lemma close_splits_instances_of_a_key_witness :
  ∃ srv1 w1 w2 srv2 w3,
    createServerInstance (Some "10.0.0.1") (initial_world 0) = Some (srv1, w1) ∧
    onclose demo_transport w1 = Some (tt, w2) ∧
    createServerInstance (Some "10.0.0.1") w2 = Some (srv2, w3) ∧
    srv_state srv1 ≠ srv_state srv2.
Proof.
  assert (Hok : store_ok (initial_world 0)).
  { intros k l Hk. simpl in Hk. rewrite lookup_empty in Hk. discriminate. }
  destruct (close_splits_instances_of_a_key (H := demo_backend) (Some "10.0.0.1")
              demo_transport "react" "react" None None (initial_world 0)
              Hok eq_refl eq_refl)
    as (srv1 & w1 & w2 & srv2 & w3 & _ & _ & Hc1 & Hclose & Hc2 & _ & Hne & _).
  exists srv1, w1, w2, srv2, w3. repeat split; assumption.
Defined.

Lemma telemetry_invariants_witness :
  ∃ st,
    run (H := demo_backend)
      [EvRequest (demo_http "POST" "/mcp" None (CallResolve "left-pad")) "c1";
       EvRequest (demo_http_unparsed "POST" (CallResolve "react")) "c0";
       EvClock 90000; EvTimer 0; EvTransportClosed demo_transport;
       EvRequest (demo_http "POST" "/mcp" None (CallDocs "react" None None)) "c2"]
      (initial_state 0) = Some (tt, st) ∧
    totalCallCount (world st) =
      (resolve_library_id_count (toolCallStats (world st)) +
       get_library_docs_count (toolCallStats (world st)))%Z ∧
    Forall masked (callHistory (world st)).
Proof.
  assert (Hrun : ∃ st,
            run (H := demo_backend)
              [EvRequest (demo_http "POST" "/mcp" None (CallResolve "left-pad")) "c1";
               EvRequest (demo_http_unparsed "POST" (CallResolve "react")) "c0";
               EvClock 90000; EvTimer 0; EvTransportClosed demo_transport;
               EvRequest (demo_http "POST" "/mcp" None (CallDocs "react" None None)) "c2"]
              (initial_state 0) = Some (tt, st)).
  { eexists. vm_compute. reflexivity. }
  destruct Hrun as [st Hrun]. exists st. split; [exact Hrun|].
  destruct (telemetry_invariants (H := demo_backend) _ _ _ Hrun) as (Hsum & _ & Hmask).
  split; assumption.
Defined.

Lemma instances_share_a_session_iff_keys_equal_witness :
  ∃ st srvA wA srvB wB,
    run (H := demo_backend) [EvRequest (demo_http "GET" "/ping" None (CallResolve "")) "c1"]
      (initial_state 0) = Some (tt, st) ∧
    createServerInstance None (world st) = Some (srvA, wA) ∧
    createServerInstance (Some "") wA = Some (srvB, wB) ∧
    srv_state srvA = srv_state srvB.
Proof.
  destruct (instances_share_a_session_iff_keys_equal (H := demo_backend)
              [EvRequest (demo_http "GET" "/ping" None (CallResolve "")) "c1"]
              0 None (Some ""))
    as (st & srvA & wA & srvB & wB & Hrun & HcA & HcB & _ & _ & Hiff).
  { repeat constructor; discriminate. }
  exists st, srvA, wA, srvB, wB. repeat split; try assumption.
  apply Hiff. reflexivity.
Defined.

Lemma listener_static_answers_witness :
  listener (H := demo_backend) (demo_http_unparsed "OPTIONS" (CallResolve "")) "c1"
    (initial_state 0) =
    Some ({| res_headers := []; res_answer := Unanswered |}, initial_state 0) ∧
  listener (H := demo_backend) (demo_http "OPTIONS" "/mcp" None (CallResolve "")) "c1"
    (initial_state 0) = Some (respond (Written 200 None ""), initial_state 0) ∧
  ∃ srv w1,
    createServerInstance (Some "10.0.0.1") (world (initial_state 0)) = Some (srv, w1) ∧
    listener (H := demo_backend) (demo_http "DELETE" "/ping" None (CallResolve "")) "c1"
      (initial_state 0) =
      Some (respond (Written 200 (Some "text/plain") "pong"),
            {| world := w1; sseTransports := sseTransports (initial_state 0) |}).
Proof.
  split; [|split].
  - apply (listener_static_answers (H := demo_backend)
             (demo_http_unparsed "OPTIONS" (CallResolve "")) "c1" (initial_state 0)
             (initial_state_ok 0)).
    reflexivity.
  - apply (proj2 (listener_static_answers (H := demo_backend)
             (demo_http "OPTIONS" "/mcp" None (CallResolve "")) "c1" (initial_state 0)
             (initial_state_ok 0)) (ex_intro _ _ eq_refl)).
    reflexivity.
  - apply (proj2 (proj2 (proj2 (proj2 (listener_static_answers (H := demo_backend)
             (demo_http "DELETE" "/ping" None (CallResolve "")) "c1" (initial_state 0)
             (initial_state_ok 0)) (ex_intro _ _ eq_refl))))); try discriminate.
    + intros [Hp _]. discriminate Hp.
    + intros [Hp _]. discriminate Hp.
    + reflexivity.
Defined.

Lemma every_request_registers_a_session_witness :
  (∃ resp st',
     listener (H := demo_backend) (demo_http "GET" "/favicon.ico" None (CallResolve "")) "c1"
       (initial_state 0) = Some (resp, st') ∧
     is_Some (sessionStates (world st') !! "10.0.0.1")) ∧
  (∃ resp,
     listener (H := demo_backend) (demo_http_unparsed "GET" (CallResolve "")) "c1"
       (initial_state 0) = Some (resp, initial_state 0) ∧
     res_answer resp = Unanswered).
Proof.
  split.
  - destruct (every_request_registers_a_session (H := demo_backend)
                (demo_http "GET" "/favicon.ico" None (CallResolve "")) "c1"
                (Some "10.0.0.1") (initial_state 0) (initial_state_ok 0))
      as [Hparsed _]; [discriminate|reflexivity|].
    destruct (Hparsed (ex_intro _ _ eq_refl)) as (resp & st' & Hrun & _ & Hkey & _).
    exists resp, st'. split; assumption.
  - destruct (every_request_registers_a_session (H := demo_backend)
                (demo_http_unparsed "GET" (CallResolve "")) "c1"
                (Some "10.0.0.1") (initial_state 0) (initial_state_ok 0))
      as [_ Hnone]; [discriminate|reflexivity|].
    exact (Hnone eq_refl).
Defined.

Lemma messages_without_channel_witness :
  ∃ srv w1,
    createServerInstance (Some "10.0.0.1") (world (initial_state 0)) = Some (srv, w1) ∧
    listener (H := demo_backend)
      (demo_http "POST" "/messages" (Some "toString") (CallResolve "react")) "c1"
      (initial_state 0) =
      Some (respond (Written 500 None "Internal Server Error"),
            {| world := w1; sseTransports := sseTransports (initial_state 0) |}).
Proof.
  destruct (messages_without_channel (H := demo_backend)
              (demo_http "POST" "/messages" (Some "toString") (CallResolve "react")) "c1"
              (Some "10.0.0.1") (initial_state 0) (initial_state_ok 0)
              eq_refl eq_refl eq_refl eq_refl)
    as (srv & w1 & Hcreate & _ & _ & Hrun).
  exists srv, w1. split; [exact Hcreate|exact Hrun].
Defined.

Lemma sse_channel_round_trip_witness :
  ∃ t srvG st1 reply st2,
    listener (H := demo_backend) (demo_http "GET" "/sse" None (CallResolve "")) "c1"
      (initial_state 0) = Some (respond (EventStreamOpened "c1" t), st1) ∧
    srv_clientIp srvG = Some "10.0.0.1" ∧
    listener (H := demo_backend)
      (demo_http_forwarded "POST" "/messages" (Some "c1") (CallResolve "react")) "c2" st1 =
      Some (respond (HandledByTransport reply None), st2) ∧
    backendCalls (world st2) =
      (backendCalls (world st1) ++ [SearchCall "react" (Some "10.0.0.1")])%list.
Proof.
  destruct (sse_channel_round_trip (H := demo_backend)
              (demo_http "GET" "/sse" None (CallResolve ""))
              (demo_http_forwarded "POST" "/messages" (Some "c1") (CallResolve "react"))
              "c1" "c2" (Some "10.0.0.1") (Some "203.0.113.7") "react"
              (initial_state 0) (initial_state_ok 0)
              eq_refl eq_refl eq_refl eq_refl eq_refl eq_refl eq_refl eq_refl)
    as (t & srvG & st1 & HrunG & _ & Hip & _ & Hpost & _);
    [discriminate|reflexivity|].
  destruct Hpost as (reply & st2 & s & HrunP & _ & _ & Hcalls).
  exists t, srvG, st1, reply, st2. repeat split; assumption.
Defined.

Lemma mcp_requests_accumulate_timers_witness :
  ∃ st',
    run (H := demo_backend)
      (map (λ req, EvRequest req "c1")
         [demo_http "POST" "/mcp" None (CallResolve "react");
          demo_http "POST" "/mcp" None (CallDocs "react" None None)])
      (initial_state 0) = Some (tt, st') ∧
    armed (world st') = 2%nat.
Proof.
  destruct (mcp_requests_accumulate_timers (H := demo_backend)
              [demo_http "POST" "/mcp" None (CallResolve "react");
               demo_http "POST" "/mcp" None (CallDocs "react" None None)]
              "c1" (initial_state 0) (initial_state_ok 0))
    as (st' & Hrun & Harm & _).
  { repeat constructor; try discriminate; now eexists. }
  exists st'. split; [exact Hrun|exact Harm].
Defined.
